(** * moviedb: the movie store and its HTTP handlers

    A shallow embedding of [internal/data] (the store interface of model.go and
    the SQL-backed and mock stores) and of [cmd/api/movie.go] (the handlers).

    Go values are modelled as follows.
    - [int64], [int32], [int] and [time.Duration] are [Z]; the only arithmetic
      on them is done by the database ([version + 1], whose overflow of the
      [integer] column is an error of the statement, never a wrap-around).
    - [error] is the inductive [error]; a [nil] error is [None].
    - [*Movie] passed to a store method and written through is explicit state
      passing: the method returns the record as the caller sees it afterwards.
    - [*sql.DB] is the state [DB]: the table, the id sequence, the log of calls
      made on the handle, and what the outside world does to each coming call
      (how long it takes, whether the connection fails).
    - [http.ResponseWriter] and the store seen from a handler are the [trace]
      of a [World]: the responses written and the store methods called, in
      order. *)

From Stdlib Require Import ZArith String Ascii List Bool Lia.
From stdpp Require Import base gmap strings list.
Import ListNotations.

Local Open Scope string_scope.
Local Open Scope Z_scope.

(* ===================================================================== *)
(** ** Package strconv *)
(* ===================================================================== *)

Module strconv.

(** [const digits = "0123456789abcdefghijklmnopqrstuvwxyz"] *)
Definition digits : string := "0123456789abcdefghijklmnopqrstuvwxyz".

Definition digit (d : Z) : ascii :=
  match String.get (Z.to_nat d) digits with
  | Some c => c
  | None => "?"%char
  end.

(** The general loop of [formatBits]: the digits of [u] in [base], least
    significant first, pushed in front of [acc].  An [int64] has at most 64
    digits in any base from 2 up, which bounds the loop. *)
Fixpoint formatBits (fuel : nat) (u base : Z) (acc : string) : string :=
  match fuel with
  | O => acc
  | S fuel' =>
      if u <? base then String (digit u) acc
      else formatBits fuel' (u / base) base (String (digit (u mod base)) acc)
  end.

(** [func FormatInt(i int64, base int) string], for [2 <= base <= 36]. *)
Definition FormatInt (i base : Z) : string :=
  if i <? 0 then String "-"%char (formatBits 64 (- i) base EmptyString)
  else formatBits 64 i base EmptyString.

End strconv.

(* ===================================================================== *)
(** ** Errors *)
(* ===================================================================== *)

(** What a call on the database handle can fail with, apart from "no rows":
    the context's own errors, a lost connection, an error reported by the
    server through the driver ([*pq.Error], by SQLSTATE code). *)
Inductive fault : Type :=
| context_DeadlineExceeded
| context_Canceled
| sql_ErrConnDone
| pq_Error (code : string).

(** The [error] values of the program: [errors_New text] is the value that
    [errors.New(text)] returns, [DatabaseFailure] a failed call on the
    database handle, [RequestError] an error of the request helpers (reading
    the id, decoding or encoding JSON), [Wrapped] is
    [fmt.Errorf("...: %w", inner)].  The [errors.New] values of the program
    have pairwise different texts, so the text stands for the value. *)
Inductive error : Type :=
| errors_New (text : string)
| DatabaseFailure (f : fault)
| RequestError (msg : string)
| Wrapped (msg : string) (inner : error).

(** [var ErrRecordNotFound = errors.New("record not found")] (model.go) *)
Definition ErrRecordNotFound : error := errors_New "record not found".

(** Modelled from the spec: [ErrEditConflict], the other distinguished error
    of the store (section 4.4), which part_000 and movie.go use and no
    source file declares. *)
Definition ErrEditConflict : error := errors_New "edit conflict".

(** [var ErrNoRows = errors.New("sql: no rows in result set")] (database/sql) *)
Definition sql_ErrNoRows : error := errors_New "sql: no rows in result set".

#[global] Instance fault_eq_dec : EqDecision fault.
Proof. solve_decision. Defined.

#[global] Instance error_eq_dec : EqDecision error.
Proof. solve_decision. Defined.

(** [errors.Is(err, target)]: [err] or an error it wraps is [target]. *)
Fixpoint errors_Is (err target : error) : bool :=
  if bool_decide (err = target) then true
  else match err with
       | Wrapped _ inner => errors_Is inner target
       | _ => false
       end.

(* ===================================================================== *)
(** ** Package validator *)
(* ===================================================================== *)

Module validator.

(** Modelled from the spec: the validator package (section 4.1), which is not
    among the source files.  Failures are recorded in a mapping from field
    name to message; the first failure of a field wins; valid means that the
    mapping is empty. *)
Record Validator : Type := mkValidator { Errors : gmap string string }.

(** Modelled from the spec: [validator.New()], a validator without errors. *)
Definition New : Validator := mkValidator ∅.

(** Modelled from the spec: [v.Valid()], "is valid = mapping is empty". *)
Definition Valid (v : Validator) : bool :=
  bool_decide (Errors v = ∅).

(** Modelled from the spec: [v.AddError(key, message)], "first failure per
    field wins, no overwrite". *)
Definition AddError (v : Validator) (key message : string) : Validator :=
  match Errors v !! key with
  | Some _ => v
  | None => mkValidator (<[key := message]> (Errors v))
  end.

(** Modelled from the spec: [v.Check(ok, key, message)], an assertion
    "(condition, field, message)" whose failure is recorded. *)
Definition Check (v : Validator) (ok : bool) (key message : string) : Validator :=
  if ok then v else AddError v key message.

(** Modelled from the spec: membership in an allow-list. *)
Definition In (value : string) (list : list string) : bool :=
  existsb (String.eqb value) list.

(** Modelled from the spec: "contains no duplicate". *)
Fixpoint Unique (values : list string) : bool :=
  match values with
  | [] => true
  | x :: rest => negb (In x rest) && Unique rest
  end.

End validator.

(* ===================================================================== *)
(** ** Package data *)
(* ===================================================================== *)

Module data.

Import validator.

(** Modelled from the spec: the [Movie] struct (section 3), declared in a file
    of the package that is not among the sources.  The fields and their Go
    types are those the source files use: [ID int64], [Title string],
    [Year int32], [Runtime] (an integer number of minutes), [Genres []string],
    [Version int32], and the creation time (here a Unix timestamp). *)
Record Movie : Type := mkMovie {
  ID : Z;
  CreatedAt : Z;
  Title : string;
  Year : Z;
  Runtime : Z;
  Genres : list string;
  Version : Z
}.

Definition with_Version (movie : Movie) (v : Z) : Movie :=
  mkMovie (ID movie) (CreatedAt movie) (Title movie) (Year movie)
          (Runtime movie) (Genres movie) v.

(** Modelled from the spec: [ValidateMovie] (section 4.2), not among the
    sources: title non-empty and at most 500 bytes; year non-zero, at least
    1888 and at most the current year; runtime positive; genres non-empty, at
    most 5, without duplicate.  The current year is read from the clock. *)
Definition ValidateMovie (current_year : Z) (v : Validator) (movie : Movie) : Validator :=
  let v := Check v (negb (String.eqb (Title movie) "")) "title" "must be provided" in
  let v := Check v (Z.of_nat (String.length (Title movie)) <=? 500) "title"
                 "must not be more than 500 bytes long" in
  let v := Check v (negb (Year movie =? 0)) "year" "must be provided" in
  let v := Check v (1888 <=? Year movie) "year" "must be greater than 1888" in
  let v := Check v (Year movie <=? current_year) "year" "must not be in the future" in
  let v := Check v (0 <? Runtime movie) "runtime" "must be a positive integer" in
  let v := Check v (1 <=? Z.of_nat (length (Genres movie))) "genres"
                 "must contain at least 1 genre" in
  let v := Check v (Z.of_nat (length (Genres movie)) <=? 5) "genres"
                 "must not contain more than 5 genres" in
  Check v (Unique (Genres movie)) "genres" "must not contain duplicate values".

(** Modelled from the spec: the [Filter] struct (section 3); the field names
    are those movie.go assigns. *)
Record Filter : Type := mkFilter {
  Page : Z;
  PageSize : Z;
  Sort : string;
  SortSafeList : list string
}.

(** Modelled from the spec: [ValidateFilter] (sections 4.3 and 8), not among
    the sources: page at least 1 and at most 10,000,000, page size between 1
    and 100, and the sort value a member of the allow-list. *)
Definition ValidateFilter (v : Validator) (f : Filter) : Validator :=
  let v := Check v (0 <? Page f) "page" "must be greater than zero" in
  let v := Check v (Page f <=? 10000000) "page" "must be a maximum of 10 million" in
  let v := Check v (0 <? PageSize f) "page_size" "must be greater than zero" in
  let v := Check v (PageSize f <=? 100) "page_size" "must be a maximum of 100" in
  Check v (In (Sort f) (SortSafeList f)) "sort" "invalid sort value".

(* --------------------------------------------------------------------- *)
(** *** The database behind [*sql.DB] *)
(* --------------------------------------------------------------------- *)

(** Modelled from the spec: the table (section 6), whose schema is not among
    the sources: [id] is the auto-assigned primary key (the key of the map),
    [created_at] is auto-assigned, [version] is an [integer] with default 1. *)
Record Row : Type := mkRow {
  created_at : Z;
  title : string;
  year : Z;
  runtime : Z;
  genres : list string;
  version : Z
}.

(** Modelled from the spec: the default of the [version] column (section 6). *)
Definition version_default : Z := 1.

(** The largest value of an [integer] column of the database. *)
Definition integer_max : Z := 2147483647.

Record Table : Type := mkTable {
  rows : gmap Z Row;
  next_id : Z
}.

(** The four statements of the store, with their arguments [$1, $2, ...]. *)
Inductive statement : Type :=
| INSERT (title : string) (year runtime : Z) (genres : list string)
| SELECT (id : Z)
| UPDATE (title : string) (year runtime : Z) (genres : list string) (id version : Z)
| DELETE (id : Z).

(** What the outside world does to one call on the handle: how long the call
    takes (in the unit of [time.Duration]), whether the connection or the
    server fails it, and the time of the server's clock. *)
Record Conditions : Type := mkConditions {
  latency : Z;
  failure : option fault;
  now : Z
}.

Definition healthy : Conditions := mkConditions 0 None 0.

(** The handle: the table, the calls made on the handle so far (oldest
    first), and the conditions of the coming calls (when the list runs out
    the calls are [healthy]). *)
Record DB : Type := mkDB {
  table : Table;
  calls : list statement;
  conditions : list Conditions
}.

(** [INSERT INTO movie (title, year, runtime, genres) VALUES ($1, $2, $3, $4)
    RETURNING id, created_at, version]: the row written and the three columns
    returned.  The sequence advances even when the key is taken. *)
Definition exec_insert (title : string) (year runtime : Z) (genres : list string)
    (c : Conditions) (t : Table) : (Z * Z * Z + fault) * Table :=
  let id := next_id t in
  match rows t !! id with
  | Some _ => (inr (pq_Error "23505"), mkTable (rows t) (id + 1))
  | None =>
      let row := mkRow (now c) title year runtime genres version_default in
      (inl (id, now c, version_default), mkTable (<[id := row]> (rows t)) (id + 1))
  end.

(** [SELECT id, created_at, title, year, runtime, genres, version FROM movie
    WHERE id = $1]: the row of that key, if any. *)
Definition exec_select (id : Z) (t : Table) : option Row :=
  rows t !! id.

(** [UPDATE movie SET title = $1, year = $2, runtime = $3, genres = $4,
    version = version + 1 WHERE id = $5 AND version = $6 RETURNING version]:
    [None] when no row matches, the new version otherwise.  [version + 1]
    beyond the column's range fails the statement (SQLSTATE 22003). *)
Definition exec_update (title : string) (year runtime : Z) (genres : list string)
    (id ver : Z) (t : Table) : (option Z + fault) * Table :=
  match rows t !! id with
  | Some row =>
      if version row =? ver then
        if integer_max <? version row + 1 then (inr (pq_Error "22003"), t)
        else
          let row' := mkRow (created_at row) title year runtime genres (version row + 1) in
          (inl (Some (version row + 1)), mkTable (<[id := row']> (rows t)) (next_id t))
      else (inl None, t)
  | None => (inl None, t)
  end.

(** [DELETE FROM movie WHERE id = $1]: the number of rows affected. *)
Definition exec_delete (id : Z) (t : Table) : Z * Table :=
  match rows t !! id with
  | Some _ => (1, mkTable (delete id (rows t)) (next_id t))
  | None => (0, t)
  end.

(** [context.WithTimeout(context.Background(), d)] followed by one call on
    the handle under that context.  The call is logged and uses up the next
    conditions.  A context with [d <= 0] is born expired and the call returns
    its error at once; a call that takes at least [d] is cancelled in flight;
    a cancelled or failed call leaves the table as it was. *)
Definition under_timeout {A : Type} (d : Z) (stmt : statement)
    (exec : Conditions -> Table -> (A + fault) * Table) (db : DB) : (A + fault) * DB :=
  let c := hd healthy (conditions db) in
  let issued := (calls db ++ [stmt])%list in
  let rest := tl (conditions db) in
  if (d <=? 0) || (d <=? latency c) then
    (inr context_DeadlineExceeded, mkDB (table db) issued rest)
  else
    match failure c with
    | Some f => (inr f, mkDB (table db) issued rest)
    | None => let '(r, t) := exec c (table db) in (r, mkDB t issued rest)
    end.

(** The error [Row.Scan] returns: [sql.ErrNoRows] when the statement returned
    no row, the failure of the call otherwise. *)
Definition scan {A : Type} (r : option A + fault) : A + error :=
  match r with
  | inl (Some a) => inl a
  | inl None => inr sql_ErrNoRows
  | inr f => inr (DatabaseFailure f)
  end.

(* --------------------------------------------------------------------- *)
(** *** [MovieModel] *)
(* --------------------------------------------------------------------- *)

(** [type MovieModel struct { DB *sql.DB; ContextTimeout time.Duration }];
    the handle itself is the state threaded through the methods. *)
Record MovieModel : Type := mkMovieModel {
  ContextTimeout : Z
}.

(** Does the coming call on [db], made under a timeout [d], reach the server
    and come back in time? *)
Definition served (d : Z) (db : DB) : bool :=
  let c := hd healthy (conditions db) in
  negb ((d <=? 0) || (d <=? latency c)) && bool_decide (failure c = None).

(** The four calls the methods make on [m.DB], each under
    [context.WithTimeout(context.Background(), m.ContextTimeout)]. *)
Definition QueryRow_INSERT (m : MovieModel) (movie : Movie) (db : DB)
    : (option (Z * Z * Z) + fault) * DB :=
  under_timeout (ContextTimeout m)
    (INSERT (Title movie) (Year movie) (Runtime movie) (Genres movie))
    (fun c t =>
       let '(r, t') := exec_insert (Title movie) (Year movie) (Runtime movie)
                                   (Genres movie) c t in
       (match r with inl x => inl (Some x) | inr f => inr f end, t'))
    db.

Definition QueryRow_SELECT (m : MovieModel) (id : Z) (db : DB)
    : (option Row + fault) * DB :=
  under_timeout (ContextTimeout m) (SELECT id)
    (fun _ t => (inl (exec_select id t), t)) db.

Definition QueryRow_UPDATE (m : MovieModel) (movie : Movie) (db : DB)
    : (option Z + fault) * DB :=
  under_timeout (ContextTimeout m)
    (UPDATE (Title movie) (Year movie) (Runtime movie) (Genres movie)
            (ID movie) (Version movie))
    (fun _ t => exec_update (Title movie) (Year movie) (Runtime movie)
                            (Genres movie) (ID movie) (Version movie) t)
    db.

Definition Exec_DELETE (m : MovieModel) (id : Z) (db : DB) : (Z + fault) * DB :=
  under_timeout (ContextTimeout m) (DELETE id)
    (fun _ t => let '(n, t') := exec_delete id t in (inl n, t')) db.

Definition MovieModel_Insert (m : MovieModel) (movie : Movie) (db : DB)
    : Movie * option error * DB :=
  let '(r, db') := QueryRow_INSERT m movie db in
  match scan r with
  | inl (id, created, ver) =>
      (mkMovie id created (Title movie) (Year movie) (Runtime movie) (Genres movie) ver,
       None, db')
  | inr err => (movie, Some err, db')
  end.

Definition MovieModel_Get (m : MovieModel) (id : Z) (db : DB)
    : option Movie * option error * DB :=
  if id <? 1 then (None, Some ErrRecordNotFound, db)
  else
    let '(r, db') := QueryRow_SELECT m id db in
    match scan r with
    | inr err =>
        if errors_Is err sql_ErrNoRows then (None, Some ErrRecordNotFound, db')
        else (None, Some err, db')
    | inl row =>
        (Some (mkMovie id (created_at row) (title row) (year row) (runtime row)
                       (genres row) (version row)),
         None, db')
    end.

Definition MovieModel_Update (m : MovieModel) (movie : Movie) (db : DB)
    : Movie * option error * DB :=
  let '(r, db') := QueryRow_UPDATE m movie db in
  match scan r with
  | inr err =>
      if errors_Is err sql_ErrNoRows then (movie, Some ErrEditConflict, db')
      else (movie, Some err, db')
  | inl ver => (with_Version movie ver, None, db')
  end.

Definition MovieModel_Delete (m : MovieModel) (id : Z) (db : DB)
    : option error * DB :=
  if id <? 1 then (Some ErrRecordNotFound, db)
  else
    let '(r, db') := Exec_DELETE m id db in
    match r with
    | inr f => (Some (DatabaseFailure f), db')
    | inl deletedRows =>
        (* [result.RowsAffected()] of the driver never fails *)
        if deletedRows =? 0 then (Some ErrRecordNotFound, db')
        else (None, db')
    end.

(* --------------------------------------------------------------------- *)
(** *** [MockMovieModel] *)
(* --------------------------------------------------------------------- *)





(* --------------------------------------------------------------------- *)
(** *** model.go *)
(* --------------------------------------------------------------------- *)

(** The interface type of the field [Model.Movie], over the state [S] the
    implementation works on.  A method taking [*Movie] returns the record as
    the caller sees it after the call. *)
Record MovieStore (S : Type) : Type := mkMovieStore {
  Insert : Movie -> S -> Movie * option error * S;
  Get : Z -> S -> option Movie * option error * S;
  Update : Movie -> S -> Movie * option error * S;
  Delete : Z -> S -> option error * S
}.

Arguments mkMovieStore {S} _ _ _ _.
Arguments Insert {S} _ _ _.
Arguments Get {S} _ _ _.
Arguments Update {S} _ _ _.
Arguments Delete {S} _ _ _.

(** [type Model struct { Movie interface {...} }] *)
Record Model (S : Type) : Type := mkModel {
  Model_Movie : MovieStore S
}.

Arguments mkModel {S} _.
Arguments Model_Movie {S} _.

(** A [MovieModel] value as a value of the interface. *)
Definition MovieModel_store (m : MovieModel) : MovieStore DB :=
  mkMovieStore (MovieModel_Insert m) (MovieModel_Get m)
               (MovieModel_Update m) (MovieModel_Delete m).


(** [MovieModel{DB: db}]: the composite literal names [DB] only, so
    [ContextTimeout] has the zero value of [time.Duration]. *)
Definition NewModel_MovieModel : MovieModel := mkMovieModel 0.

(** [func NewModel(db *sql.DB) Model] *)
Definition NewModel : Model DB := mkModel (MovieModel_store NewModel_MovieModel).


(** The method sets, as (name, signature) pairs: of the interface declared in
    model.go, and of the two struct types as the source files declare their
    methods. *)
Definition method : Type := (string * string)%type.

Definition Model_Movie_methods : list method :=
  [ ("Insert", "func(*Movie) error");
    ("Get", "func(int64) (*Movie, error)");
    ("Update", "func(*Movie) error");
    ("Delete", "func(int64) error") ].

Definition MovieModel_methods : list method :=
  [ ("Insert", "func(*Movie) error");
    ("Get", "func(int64) (*Movie, error)");
    ("Update", "func(*Movie) error");
    ("Delete", "func(int64) error") ].

Definition MockMovieModel_methods : list method :=
  [ ("Insert", "func(*Movie) error");
    ("Get", "func(int64) (*Movie, error)");
    ("Update", "func(*Movie) error");
    ("Delete", "func(int64) error") ].

Definition has_method (methods : list method) (m : method) : bool :=
  existsb (fun m' => String.eqb (fst m) (fst m') && String.eqb (snd m) (snd m')) methods.

(** A type implements an interface when it has each of its methods. *)
Definition implements (type_methods interface_methods : list method) : bool :=
  forallb (has_method type_methods) interface_methods.

(** The selector [x.name] on a value of interface type resolves when the
    interface declares a method of that name. *)
Definition selects (interface_methods : list method) (name : string) : bool :=
  existsb (fun m => String.eqb name (fst m)) interface_methods.

End data.

(* ===================================================================== *)
(** ** Package main (cmd/api/movie.go) *)
(* ===================================================================== *)

Module api.

Import validator data.

(** [type Input struct]: three pointers and a slice, each [nil] ([None]) when
    the JSON body does not give the field. *)
Record Input : Type := mkInput {
  Input_Title : option string;
  Input_Year : option Z;
  Input_Runtime : option Z;
  Input_Genres : option (list string)
}.

(** What a handler reads of [*http.Request], through helpers that are not
    among the sources: the result of [app.readIdParam(r)], the value of
    [r.Header.Get("X-Expected-Version")] (empty when the header is absent),
    and the result of [app.readJSON(w, r, &input)]: the error, and [input] as
    the decoder left it. *)
Record Request : Type := mkRequest {
  readIdParam : Z + error;
  X_Expected_Version : string;
  readJSON : Input * option error
}.

(** What a handler reads of the process: the year of the clock, and the
    error, if any, of encoding the body of the handler's success response
    (the bodies of the error responses are messages and always encode). *)
Record Env : Type := mkEnv {
  current_year : Z;
  writeJSON_error : option error
}.

(** What a handler does that others see: the store methods it calls and the
    responses it writes. *)
Inductive call : Type :=
| CallInsert (movie : Movie)
| CallGet (id : Z)
| CallUpdate (movie : Movie)
| CallDelete (id : Z).

Inductive event : Type :=
| StoreCall (c : call)
| Response (status : Z).

Record World (S : Type) : Type := mkWorld {
  state : S;
  trace : list event
}.

Arguments mkWorld {S} _ _.
Arguments state {S} _.
Arguments trace {S} _.

(** How a handler ends: it returns, or it panics (a nil pointer dereference). *)
Inductive Exit (S : Type) : Type :=
| Returned (w : World S)
| Panicked (w : World S).

Arguments Returned {S} _.
Arguments Panicked {S} _.

Definition world_of {S : Type} (x : Exit S) : World S :=
  match x with Returned w => w | Panicked w => w end.

Definition is_Update (e : event) : bool :=
  match e with StoreCall (CallUpdate _) => true | _ => false end.

(** The responses written, oldest first. *)
Definition responses (t : list event) : list Z :=
  flat_map (fun e => match e with Response s => [s] | StoreCall _ => [] end) t.

(** The status the client receives: that of the first response written
    (net/http ignores a later [WriteHeader]). *)
Definition status_sent (t : list event) : option Z :=
  head (responses t).

Definition http_StatusOK : Z := 200.
Definition http_StatusCreated : Z := 201.

(** Is [status] a success status (2xx)? *)
Definition is_success (status : Z) : bool :=
  (200 <=? status) && (status <? 300).

(** Modelled from the spec: [copyProperties(input, movie)], not among the
    sources.  The update is partial (section 6): each field the body gives
    replaces the movie's, the others stay. *)
Definition copyProperties (input : Input) (movie : Movie) : Movie :=
  mkMovie (ID movie) (CreatedAt movie)
          (default (Title movie) (Input_Title input))
          (default (Year movie) (Input_Year input))
          (default (Runtime movie) (Input_Runtime input))
          (default (Genres movie) (Input_Genres input))
          (Version movie).

(** The allow-list [listMoviesHandler] assigns to [input.Filter.SortSafeList]. *)
Definition listMovies_SortSafeList : list string :=
  ["id"; "title"; "year"; "runtime"; "-id"; "-title"; "-year"; "-runtime"].

(** The filter [listMoviesHandler] validates, from the three values read of
    the query string. *)
Definition listMovies_Filter (page page_size : Z) (sort : string) : Filter :=
  mkFilter page page_size sort listMovies_SortSafeList.

(** The method [listMoviesHandler] selects on [app.model.Movie]. *)
Definition listMovies_selector : string := "GetAll".

(** The test of the [X-Expected-Version] header in [updateMovieHandler]. *)
Definition version_mismatch (expectedVersion : string) (movie : Movie) : bool :=
  negb (String.eqb expectedVersion "")
  && negb (String.eqb expectedVersion (strconv.FormatInt (Version movie) 32)).

Section Handlers.

Context {S : Type}.
Variable model : Model S.
Variable env : Env.

Definition record (e : event) (w : World S) : World S :=
  mkWorld (state w) (trace w ++ [e])%list.

(** Modelled from the spec: the response helpers, not among the sources.
    Each writes one response, with the status section 4.5 gives it: 404 for
    not found, 409 for an edit conflict, 422 for a failed validation, 500
    for a server error.  The bad-request response, which the section does
    not list, has the status of its name, 400. *)
Definition badRequestResponse (w : World S) : World S :=
  record (Response 400) w.

(** Modelled from the spec: "Not-Found -> 404". *)
Definition notFoundResponse (w : World S) : World S :=
  record (Response 404) w.

(** Modelled from the spec: "Edit-Conflict -> 409". *)
Definition editConflictResponse (w : World S) : World S :=
  record (Response 409) w.

(** Modelled from the spec: "validation failure -> 422". *)
Definition failedValidationResponse (w : World S) : World S :=
  record (Response 422) w.

(** Modelled from the spec: "all else -> 500". *)
Definition serverErrorResponse (w : World S) : World S :=
  record (Response 500) w.

(** Modelled from the spec: [app.writeJSON(w, status, data, headers)], a
    marshalling helper the spec leaves to a collaborator (section 1) and no
    source file holds: it writes one response with the given status, or,
    when the body cannot be encoded, writes nothing and returns the error. *)
Definition writeJSON (status : Z) (w : World S) : option error * World S :=
  match writeJSON_error env with
  | Some err => (Some err, w)
  | None => (None, record (Response status) w)
  end.

(** The last step of every handler: write the success response, or the server
    error when that fails. *)
Definition finish (status : Z) (w : World S) : Exit S :=
  match writeJSON status w with
  | (Some _, w') => Returned (serverErrorResponse w')
  | (None, w') => Returned w'
  end.

(** Calls through the interface value [app.model.Movie]. *)
Definition store_Insert (movie : Movie) (w : World S) : Movie * option error * World S :=
  let '(movie', err, s) := Insert (Model_Movie model) movie (state w) in
  (movie', err, mkWorld s (trace w ++ [StoreCall (CallInsert movie)])%list).

Definition store_Get (id : Z) (w : World S) : option Movie * option error * World S :=
  let '(movie, err, s) := Get (Model_Movie model) id (state w) in
  (movie, err, mkWorld s (trace w ++ [StoreCall (CallGet id)])%list).

Definition store_Update (movie : Movie) (w : World S) : Movie * option error * World S :=
  let '(movie', err, s) := Update (Model_Movie model) movie (state w) in
  (movie', err, mkWorld s (trace w ++ [StoreCall (CallUpdate movie)])%list).

Definition store_Delete (id : Z) (w : World S) : option error * World S :=
  let '(err, s) := Delete (Model_Movie model) id (state w) in
  (err, mkWorld s (trace w ++ [StoreCall (CallDelete id)])%list).

Definition createMovieHandler (r : Request) (w : World S) : Exit S :=
  let '(input, err) := readJSON r in
  match err with
  | Some _ => Returned (badRequestResponse w)
  | None =>
      (* [*input.Title], [*input.Year], [*input.Runtime] *)
      match Input_Title input, Input_Year input, Input_Runtime input with
      | Some title, Some year, Some runtime =>
          let movie := mkMovie 0 0 title year runtime (default [] (Input_Genres input)) 0 in
          (* the other fields of the literal have their zero values *)
          let v := ValidateMovie (current_year env) New movie in
          if negb (Valid v) then Returned (failedValidationResponse w)
          else
            let '(movie, err, w) := store_Insert movie w in
            match err with
            | Some _ => Returned (serverErrorResponse w)
            | None => finish http_StatusCreated w
            end
      | _, _, _ => Panicked w
      end
  end.

Definition showMovieHandler (r : Request) (w : World S) : Exit S :=
  match readIdParam r with
  | inr _ => Returned (notFoundResponse w)
  | inl id =>
      let '(movie, err, w) := store_Get id w in
      match err with
      | Some err =>
          if errors_Is err ErrRecordNotFound then Returned (notFoundResponse w)
          else Returned (serverErrorResponse w)
      | None => finish http_StatusOK w
      end
  end.

Definition updateMovieHandler (r : Request) (w : World S) : Exit S :=
  match readIdParam r with
  | inr _ => Returned (notFoundResponse w)
  | inl id =>
      let '(movie, err, w) := store_Get id w in
      match err with
      | Some err =>
          if errors_Is err ErrRecordNotFound then Returned (notFoundResponse w)
          else Returned (serverErrorResponse w)
      | None =>
          match movie with
          | None => Panicked w   (* [movie.Version] of a nil [*Movie] *)
          | Some movie =>
              if version_mismatch (X_Expected_Version r) movie
              then Returned (editConflictResponse w)
              else
                let '(input, err) := readJSON r in
                (* no [return] follows [app.badRequestResponse] here *)
                let w := match err with
                         | Some _ => badRequestResponse w
                         | None => w
                         end in
                let movie := copyProperties input movie in
                let v := ValidateMovie (current_year env) New movie in
                if negb (Valid v) then Returned (failedValidationResponse w)
                else
                  let '(movie, err, w) := store_Update movie w in
                  match err with
                  | Some err =>
                      if errors_Is err ErrEditConflict then Returned (editConflictResponse w)
                      else Returned (serverErrorResponse w)
                  | None => finish http_StatusOK w
                  end
          end
      end
  end.

Definition deleteMovieHandler (r : Request) (w : World S) : Exit S :=
  match readIdParam r with
  | inr _ => Returned (notFoundResponse w)
  | inl id =>
      let '(err, w) := store_Delete id w in
      match err with
      | Some err =>
          if errors_Is err ErrRecordNotFound then Returned (notFoundResponse w)
          else Returned (serverErrorResponse w)
      | None => finish http_StatusOK w
      end
  end.

End Handlers.

(** The four handlers of a movie, served over the SQL-backed store [m] on
    the handle [db], from an empty trace. *)
Inductive handler : Type :=
| createMovie
| showMovie
| updateMovie
| deleteMovie.

Definition serve (h : handler) (m : MovieModel) (env : Env) (r : Request) (db : DB)
    : Exit DB :=
  let model := mkModel (MovieModel_store m) in
  let w := mkWorld db [] in
  match h with
  | createMovie => createMovieHandler model env r w
  | showMovie => showMovieHandler model env r w
  | updateMovie => updateMovieHandler model env r w
  | deleteMovie => deleteMovieHandler model env r w
  end.

(** The failures a handler can meet. *)
Inductive failure : Type :=
| BadIdParam (err : error)
| BadBody (err : error)
| ExpectedVersionMismatch
| ValidationFailure (errors : gmap string string)
| StoreError (err : error)
| EncodeError (err : error).



(** The movie [createMovieHandler] builds from a body that gives the three
    fields it dereferences. *)
Definition created_movie (title : string) (year runtime : Z) (input : Input) : Movie :=
  mkMovie 0 0 title year runtime (default [] (Input_Genres input)) 0.


End api.

(* ===================================================================== *)
(** ** Notions the properties are stated with *)
(* ===================================================================== *)

Module notions.

Import data.

(** Is the row of [movie]'s id stored with the version [movie] carries? *)
Definition matches (movie : Movie) (t : Table) : bool :=
  match rows t !! ID movie with
  | Some row => version row =? Version movie
  | None => false
  end.

(** The version stored for [id], if the row exists. *)
Definition stored_version (id : Z) (t : Table) : option Z :=
  version <$> rows t !! id.


End notions.

(* ===================================================================== *)
(** ** Notions the properties of the handlers are stated with *)
(* ===================================================================== *)

Module trace_notions.

Import data api.

(** The store methods called, oldest first. *)
Definition store_calls (t : list event) : list call :=
  flat_map (fun e => match e with StoreCall c => [c] | Response _ => [] end) t.

(** Does the client receive a success status? *)
Definition succeeded (t : list event) : bool :=
  match status_sent t with
  | Some status => is_success status
  | None => false
  end.

End trace_notions.

(* ===================================================================== *)
(** ** Reading back what strconv writes *)
(* ===================================================================== *)

Module strconv_notions.

(** The place of [c] in [s], counted from [i] (past the end when [c] is not
    in [s]). *)
Fixpoint index_from (c : ascii) (s : string) (i : Z) : Z :=
  match s with
  | EmptyString => i
  | String c' s' => if Ascii.eqb c c' then i else index_from c s' (i + 1)
  end.

(** The value of a digit: its place among [strconv.digits]. *)
Definition digit_value (c : ascii) : Z := index_from c strconv.digits 0.

(** The integer that a string of digits denotes in [base], most significant
    digit first; a minus sign makes it negative. *)
Fixpoint read (base : Z) (s : string) (negative : bool) (acc : Z) : Z :=
  match s with
  | EmptyString => if negative then - acc else acc
  | String c s' =>
      if Ascii.eqb c "-" then read base s' true acc
      else read base s' negative (acc * base + digit_value c)
  end.

Definition denoted (base : Z) (s : string) : Z := read base s false 0.

End strconv_notions.

(* ===================================================================== *)
(** ** Sample values *)
(* ===================================================================== *)

Module samples.

Import validator data.

(** A store whose operations get three seconds each. *)
Definition model_3s : MovieModel := mkMovieModel 3000000000.

Definition casablanca : Row :=
  mkRow 1700000000 "Casablanca" 1942 102 ["drama"; "romance"] 3.

(** A table with one row, of id 7 and version 3; the next id is 8. *)
Definition table1 : Table := mkTable {[ 7 := casablanca ]} 8.

(** A handle on [table1] on which nothing was called yet and whose coming
    calls are healthy. *)
Definition db1 : DB := mkDB table1 [] [].

(** The row of id 7 as read at version 3, and as read earlier at version 2. *)
Definition current_movie : Movie :=
  mkMovie 7 1700000000 "Casablanca" 1942 102 ["drama"; "romance"] 3.

Definition stale_movie : Movie :=
  mkMovie 7 1700000000 "Casablanca" 1942 102 ["drama"; "romance"] 2.

(** The same handle when the connection is lost at the coming call. *)
Definition db_down : DB := mkDB table1 [] [mkConditions 1000 (Some sql_ErrConnDone) 0].

(** A movie not stored yet. *)
Definition new_movie : Movie :=
  mkMovie 0 0 "Moana" 2016 107 ["animation"; "adventure"] 0.

(** The same row once it has reached version 10. *)
Definition table10 : Table :=
  mkTable {[ 7 := mkRow 1700000000 "Casablanca" 1942 102 ["drama"; "romance"] 10 ]} 8.

Definition db10 : DB := mkDB table10 [] [].

(** A process in the year 2024 whose responses encode. *)
Definition env2024 : api.Env := api.mkEnv 2024 None.

(** PATCH of movie 7 that expects version 10, written in decimal, and sets a
    new runtime. *)
Definition patch_expecting_10 : api.Request :=
  api.mkRequest (inl 7) "10" (api.mkInput None None (Some 103) None, None).

(** The same with the version written in base 32. *)
Definition patch_expecting_a : api.Request :=
  api.mkRequest (inl 7) "a" (api.mkInput None None (Some 103) None, None).

(** The row of [table10] as [Get] returns it. *)
Definition movie_v10 : Movie :=
  mkMovie 7 1700000000 "Casablanca" 1942 102 ["drama"; "romance"] 10.


(** PATCH of movie 7 whose body is not JSON: nothing is decoded. *)
Definition patch_malformed : api.Request :=
  api.mkRequest (inl 7) ""
    (api.mkInput None None None None, Some (RequestError "body contains badly-formed JSON")).


(** POST of the body [{}]: it decodes, and gives no field. *)
Definition post_empty_object : api.Request :=
  api.mkRequest (inr (RequestError "invalid id parameter")) ""
    (api.mkInput None None None None, None).

(** POST of a movie with an empty title. *)
Definition post_untitled : api.Request :=
  api.mkRequest (inr (RequestError "invalid id parameter")) ""
    (api.mkInput (Some "") (Some 2016) (Some 107) (Some ["animation"]), None).

(** Casablanca under another title, as two clients hold it: read at version
    3, and as written back by an update at version 4. *)
Definition retitled_movie : Movie :=
  mkMovie 7 1700000000 "Casablanca (restored)" 1942 102 ["drama"; "romance"] 3.

Definition retitled_movie_v4 : Movie :=
  mkMovie 7 1700000000 "Casablanca (restored)" 1942 102 ["drama"; "romance"] 4.

(** A second row, of id 9, and a handle on the table of both. *)
Definition metropolis : Row :=
  mkRow 1700000500 "Metropolis" 1927 153 ["sci-fi"] 1.

Definition db_two : DB :=
  mkDB (mkTable {[ 7 := casablanca; 9 := metropolis ]} 10) [] [].

(** The row of [table10] as another client holds it, retitled. *)
Definition movie_v10_retitled : Movie :=
  mkMovie 7 1700000000 "Casablanca (restored)" 1942 102 ["drama"; "romance"] 10.

(** DELETE of movie 7. *)
Definition delete_7 : api.Request :=
  api.mkRequest (inl 7) "" (api.mkInput None None None None, None).

(** PATCH of movie 7 that expects version 3 and sets a new runtime. *)
Definition patch_expecting_3 : api.Request :=
  api.mkRequest (inl 7) "3" (api.mkInput None None (Some 103) None, None).

End samples.

(* ===================================================================== *)
(** ** Properties of the store *)
(* ===================================================================== *)

Module store_facts.

Import validator data notions samples.

Section Calls.

Context {A : Type}.
Variable d : Z.
Variable stmt : statement.
Variable exec : Conditions -> Table -> (A + fault) * Table.

Lemma under_timeout_served (db : DB) :
  served d db = true ->
  under_timeout d stmt exec db =
    (fst (exec (hd healthy (conditions db)) (table db)),
     mkDB (snd (exec (hd healthy (conditions db)) (table db)))
          (calls db ++ [stmt])%list (tl (conditions db))).
Proof.
  unfold served, under_timeout. intros H.
  apply andb_true_iff in H as [H1 H2].
  apply negb_true_iff in H1. rewrite H1.
  apply bool_decide_eq_true in H2. rewrite H2.
  destruct (exec _ _); reflexivity.
Qed.

Lemma under_timeout_not_served (db : DB) :
  served d db = false ->
  exists f, under_timeout d stmt exec db =
    (inr f, mkDB (table db) (calls db ++ [stmt])%list (tl (conditions db))).
Proof.
  unfold served, under_timeout. intros H.
  destruct ((d <=? 0) || (d <=? latency (hd healthy (conditions db)))) eqn:E.
  - eexists; reflexivity.
  - destruct (failure (hd healthy (conditions db))) eqn:F.
    + eexists; reflexivity.
    + rewrite bool_decide_eq_true_2 in H by reflexivity. discriminate.
Qed.

Lemma under_timeout_calls (db : DB) :
  calls (snd (under_timeout d stmt exec db)) = (calls db ++ [stmt])%list.
Proof.
  unfold under_timeout.
  destruct ((d <=? 0) || _); [reflexivity|].
  destruct (failure _); [reflexivity|].
  destruct (exec _ _); reflexivity.
Qed.

End Calls.

Lemma errors_Is_refl (e : error) : errors_Is e e = true.
Proof. destruct e; cbn [errors_Is]; rewrite bool_decide_eq_true_2 by reflexivity; reflexivity. Qed.

Lemma DatabaseFailure_Is (f : fault) (target : error) :
  errors_Is (DatabaseFailure f) target = bool_decide (DatabaseFailure f = target).
Proof. simpl. destruct (bool_decide _); reflexivity. Qed.

Lemma DatabaseFailure_not_sentinel (f : fault) :
  errors_Is (DatabaseFailure f) sql_ErrNoRows = false
  /\ errors_Is (DatabaseFailure f) ErrRecordNotFound = false
  /\ errors_Is (DatabaseFailure f) ErrEditConflict = false.
Proof. repeat split; reflexivity. Qed.

(** What the UPDATE statement returns, by the row it finds. *)
Lemma exec_update_spec title year runtime genres id ver (t : Table) :
  match rows t !! id with
  | Some row =>
      if version row =? ver then
        if integer_max <? ver + 1
        then exec_update title year runtime genres id ver t = (inr (pq_Error "22003"), t)
        else exec_update title year runtime genres id ver t =
               (inl (Some (ver + 1)),
                mkTable (<[id := mkRow (created_at row) title year runtime genres (ver + 1)]>
                           (rows t)) (next_id t))
      else exec_update title year runtime genres id ver t = (inl None, t)
  | None => exec_update title year runtime genres id ver t = (inl None, t)
  end.
Proof.
  unfold exec_update.
  destruct (rows t !! id) as [row|]; [|reflexivity].
  destruct (version row =? ver) eqn:E; [|reflexivity].
  apply Z.eqb_eq in E. subst ver.
  destruct (integer_max <? version row + 1); reflexivity.
Qed.

Lemma exec_update_no_rows title year runtime genres (movie : Movie) (t : Table) :
  fst (exec_update title year runtime genres (ID movie) (Version movie) t) = inl None
  <-> matches movie t = false.
Proof.
  unfold matches.
  pose proof (exec_update_spec title year runtime genres (ID movie) (Version movie) t) as H.
  destruct (rows t !! ID movie) as [row|].
  - destruct (version row =? Version movie).
    + destruct (integer_max <? Version movie + 1); rewrite H; simpl; split; discriminate.
    + rewrite H. simpl. tauto.
  - rewrite H. simpl. tauto.
Qed.

Lemma exec_update_unmatched title year runtime genres (movie : Movie) (t : Table) :
  matches movie t = false ->
  exec_update title year runtime genres (ID movie) (Version movie) t = (inl None, t).
Proof.
  unfold matches. intros H.
  pose proof (exec_update_spec title year runtime genres (ID movie) (Version movie) t) as E.
  destruct (rows t !! ID movie) as [row|]; [|exact E].
  rewrite H in E. exact E.
Qed.

(** C1. [Update] returns the Edit-Conflict error exactly when its UPDATE
    statement came back with no row, which is exactly when the call was
    served and no row has both the movie's id and the movie's version; a
    failed call is returned as its own error, which is not Edit-Conflict; and
    a movie whose stored version differs from the one it carries (or whose
    row is gone) never updates: [Update] returns an error, Edit-Conflict when
    the call was served, and the table and the in-memory record stay as they
    were. *)
Theorem Update_edit_conflict (m : MovieModel) (movie : Movie) (db : DB) :
  let '(movie', err, db') := MovieModel_Update m movie db in
  (err = Some ErrEditConflict <-> fst (QueryRow_UPDATE m movie db) = inl None)
  /\ (fst (QueryRow_UPDATE m movie db) = inl None
      <-> served (ContextTimeout m) db = true /\ matches movie (table db) = false)
  /\ (forall f, fst (QueryRow_UPDATE m movie db) = inr f ->
      err = Some (DatabaseFailure f)
      /\ errors_Is (DatabaseFailure f) ErrEditConflict = false)
  /\ (matches movie (table db) = false ->
      err <> None /\ table db' = table db /\ movie' = movie
      /\ (served (ContextTimeout m) db = true -> err = Some ErrEditConflict)).
Proof.
  unfold MovieModel_Update.
  destruct (QueryRow_UPDATE m movie db) as [r db'] eqn:Q.
  assert (Hserved : fst (QueryRow_UPDATE m movie db) = inl None
      <-> served (ContextTimeout m) db = true /\ matches movie (table db) = false).
  { unfold QueryRow_UPDATE.
    destruct (served (ContextTimeout m) db) eqn:Sv.
    - rewrite under_timeout_served by exact Sv. simpl.
      rewrite exec_update_no_rows. tauto.
    - destruct (under_timeout_not_served (ContextTimeout m)
                  (UPDATE (Title movie) (Year movie) (Runtime movie) (Genres movie)
                          (ID movie) (Version movie))
                  (fun _ t => exec_update (Title movie) (Year movie) (Runtime movie)
                                (Genres movie) (ID movie) (Version movie) t)
                  db Sv) as [f Hf].
      rewrite Hf. simpl. split; [discriminate | intros [? _]; discriminate]. }
  assert (Hstale : matches movie (table db) = false ->
      table db' = table db /\ (forall v, r <> inl (Some v))).
  { intros Hm. revert Q. unfold QueryRow_UPDATE.
    destruct (served (ContextTimeout m) db) eqn:Sv.
    - rewrite under_timeout_served by exact Sv.
      rewrite (exec_update_unmatched _ _ _ _ _ _ Hm). simpl.
      intros Q. inversion Q; subst. simpl. split; [reflexivity | discriminate].
    - destruct (under_timeout_not_served (ContextTimeout m)
                  (UPDATE (Title movie) (Year movie) (Runtime movie) (Genres movie)
                          (ID movie) (Version movie))
                  (fun _ t => exec_update (Title movie) (Year movie) (Runtime movie)
                                (Genres movie) (ID movie) (Version movie) t)
                  db Sv) as [f Hf].
      rewrite Hf. intros Q. inversion Q; subst. simpl.
      split; [reflexivity | discriminate]. }
  rewrite Q in Hserved. simpl in Hserved. simpl.
  destruct r as [[ver|]|f]; simpl.
  - split; [split; discriminate|]. split; [exact Hserved|].
    split; [discriminate|].
    intros Hm. destruct (Hstale Hm) as [_ Hne]. exfalso. exact (Hne ver eq_refl).
  - split; [tauto|]. split; [exact Hserved|].
    split; [discriminate|].
    intros Hm. destruct (Hstale Hm) as [Ht _].
    repeat split; [discriminate | exact Ht].
  - split; [split; discriminate|]. split; [exact Hserved|].
    split.
    + intros f' E. inversion E; subst. split; reflexivity.
    + intros Hm. destruct (Hstale Hm) as [Ht _].
      split; [discriminate|]. split; [exact Ht|]. split; [reflexivity|].
      intros Sv. destruct Hserved as [_ Hs].
      specialize (Hs (conj Sv Hm)). discriminate.
Qed.

Lemma Update_edit_conflict_witness :
  snd (fst (MovieModel_Update model_3s stale_movie db1)) = Some ErrEditConflict
  /\ table (snd (MovieModel_Update model_3s stale_movie db1)) = table db1.
Proof.
  pose proof (Update_edit_conflict model_3s stale_movie db1) as H.
  destruct (MovieModel_Update model_3s stale_movie db1) as [[movie' err] db'].
  destruct H as (_ & _ & _ & H).
  assert (Hm : matches stale_movie (table db1) = false) by (vm_compute; reflexivity).
  assert (Hs : served (ContextTimeout model_3s) db1 = true) by (vm_compute; reflexivity).
  destruct (H Hm) as (_ & Ht & _ & Hc).
  split; [exact (Hc Hs) | exact Ht].
Defined.

(** What the INSERT statement returns and writes. *)
Lemma exec_insert_spec title year runtime genres (c : Conditions) (t : Table) :
  forall id created ver t',
  exec_insert title year runtime genres c t = (inl (id, created, ver), t') ->
  ver = 1 /\ id = next_id t
  /\ rows t' !! id = Some (mkRow created title year runtime genres 1).
Proof.
  unfold exec_insert. intros id created ver t'.
  destruct (rows t !! next_id t); [discriminate|].
  intros E. inversion E; subst. simpl.
  repeat split. apply lookup_insert_eq.
Qed.

(** C3. The version [Insert] writes back is 1, and 1 is what is stored; a
    successful [Update] finds the row at the version the movie carries,
    stores that version plus one, and writes it back into the in-memory
    record, whose other fields stay as they were. *)
Theorem version_counter (m : MovieModel) (movie : Movie) (db : DB) :
  (forall movie' db',
      MovieModel_Insert m movie db = (movie', None, db') ->
      Version movie' = 1
      /\ stored_version (ID movie') (table db') = Some 1)
  /\ (forall movie' db',
      MovieModel_Update m movie db = (movie', None, db') ->
      stored_version (ID movie) (table db) = Some (Version movie)
      /\ stored_version (ID movie) (table db') = Some (Version movie + 1)
      /\ Version movie' = Version movie + 1
      /\ ID movie' = ID movie /\ CreatedAt movie' = CreatedAt movie
      /\ Title movie' = Title movie /\ Year movie' = Year movie
      /\ Runtime movie' = Runtime movie /\ Genres movie' = Genres movie).
Proof.
  split.
  - intros movie' db'. unfold MovieModel_Insert, QueryRow_INSERT.
    destruct (served (ContextTimeout m) db) eqn:Sv.
    + rewrite under_timeout_served by exact Sv.
      destruct (exec_insert (Title movie) (Year movie) (Runtime movie) (Genres movie)
                  (hd healthy (conditions db)) (table db)) as [r t'] eqn:E.
      destruct r as [[[id created] ver]|f]; simpl; [|discriminate].
      intros H. inversion H; subst. simpl.
      destruct (exec_insert_spec _ _ _ _ _ _ _ _ _ _ E) as (-> & _ & Hrow).
      split; [reflexivity|]. unfold stored_version. rewrite Hrow. reflexivity.
    + match goal with |- context [under_timeout ?d ?s ?e db] =>
        destruct (under_timeout_not_served d s e db Sv) as [f Hf]; rewrite Hf
      end.
      simpl. discriminate.
  - intros movie' db'. unfold MovieModel_Update, QueryRow_UPDATE.
    destruct (served (ContextTimeout m) db) eqn:Sv.
    + rewrite under_timeout_served by exact Sv.
      pose proof (exec_update_spec (Title movie) (Year movie) (Runtime movie)
                    (Genres movie) (ID movie) (Version movie) (table db)) as E.
      unfold stored_version.
      destruct (rows (table db) !! ID movie) as [row|] eqn:L.
      * destruct (version row =? Version movie) eqn:V.
        -- apply Z.eqb_eq in V.
           destruct (integer_max <? Version movie + 1); rewrite E; simpl; [discriminate|].
           intros H. inversion H; subst. simpl.
           rewrite lookup_insert_eq. simpl. rewrite V.
           repeat split; reflexivity.
        -- rewrite E. simpl. discriminate.
      * rewrite E. simpl. discriminate.
    + match goal with |- context [under_timeout ?d ?s ?e db] =>
        destruct (under_timeout_not_served d s e db Sv) as [f Hf]; rewrite Hf
      end.
      simpl. discriminate.
Qed.

Lemma version_counter_witness :
  (Version (fst (fst (MovieModel_Insert model_3s new_movie db1))) = 1
   /\ stored_version 8 (table (snd (MovieModel_Insert model_3s new_movie db1))) = Some 1)
  /\ (Version (fst (fst (MovieModel_Update model_3s current_movie db1))) = 4
      /\ stored_version 7 (table db1) = Some 3
      /\ stored_version 7 (table (snd (MovieModel_Update model_3s current_movie db1))) = Some 4).
Proof.
  destruct (version_counter model_3s new_movie db1) as [HI _].
  destruct (version_counter model_3s current_movie db1) as [_ HU].
  specialize (HI (fst (fst (MovieModel_Insert model_3s new_movie db1)))
                 (snd (MovieModel_Insert model_3s new_movie db1))).
  specialize (HU (fst (fst (MovieModel_Update model_3s current_movie db1)))
                 (snd (MovieModel_Update model_3s current_movie db1))).
  split.
  - apply HI. vm_compute. reflexivity.
  - destruct HU as (H0 & H1 & H2 & _); [vm_compute; reflexivity|].
    split; [exact H2|]. split; [exact H0 | exact H1].
Defined.

(** C4. For an id below 1, [Get] and [Delete] return Not-Found and leave the
    handle as it was, its call log included: nothing was called on it.  For
    an id from 1 up whose call is served: without a row of that id both
    return Not-Found; with one, [Get] returns the stored record and [Delete]
    returns no error and removes the row.  A call that is not served returns
    its failure, which is not Not-Found. *)
Theorem Get_Delete_not_found (m : MovieModel) (id : Z) (db : DB) :
  (id < 1 ->
     MovieModel_Get m id db = (None, Some ErrRecordNotFound, db)
     /\ MovieModel_Delete m id db = (Some ErrRecordNotFound, db))
  /\ (1 <= id -> served (ContextTimeout m) db = true ->
      rows (table db) !! id = None ->
      fst (MovieModel_Get m id db) = (None, Some ErrRecordNotFound)
      /\ fst (MovieModel_Delete m id db) = Some ErrRecordNotFound
      /\ table (snd (MovieModel_Delete m id db)) = table db)
  /\ (1 <= id -> served (ContextTimeout m) db = true ->
      forall row, rows (table db) !! id = Some row ->
      fst (MovieModel_Get m id db) =
        (Some (mkMovie id (created_at row) (title row) (year row) (runtime row)
                       (genres row) (version row)), None)
      /\ table (snd (MovieModel_Get m id db)) = table db
      /\ fst (MovieModel_Delete m id db) = None
      /\ rows (table (snd (MovieModel_Delete m id db))) = delete id (rows (table db)))
  /\ (1 <= id -> served (ContextTimeout m) db = false ->
      exists f,
        fst (MovieModel_Get m id db) = (None, Some (DatabaseFailure f))
        /\ fst (MovieModel_Delete m id db) = Some (DatabaseFailure f)
        /\ errors_Is (DatabaseFailure f) ErrRecordNotFound = false).
Proof.
  unfold MovieModel_Get, MovieModel_Delete, QueryRow_SELECT, Exec_DELETE.
  split; [|split; [|split]].
  - intros H. apply Z.ltb_lt in H. rewrite H. split; reflexivity.
  - intros H Sv L. apply Z.ltb_ge in H. rewrite H.
    rewrite !under_timeout_served by exact Sv.
    unfold exec_select, exec_delete. rewrite L. simpl. repeat split.
  - intros H Sv row L. apply Z.ltb_ge in H. rewrite H.
    rewrite !under_timeout_served by exact Sv.
    unfold exec_select, exec_delete. rewrite L. simpl. repeat split.
  - intros H Sv. apply Z.ltb_ge in H. rewrite H.
    unfold under_timeout. unfold served in Sv.
    destruct ((ContextTimeout m <=? 0)
              || (ContextTimeout m <=? latency (hd healthy (conditions db)))).
    + exists context_DeadlineExceeded. repeat split.
    + destruct (failure (hd healthy (conditions db))) as [f|].
      * exists f. repeat split.
      * rewrite bool_decide_eq_true_2 in Sv by reflexivity. discriminate.
Qed.

Lemma Get_Delete_not_found_witness :
  (MovieModel_Get model_3s 0 db1 = (None, Some ErrRecordNotFound, db1)
   /\ MovieModel_Delete model_3s (-4) db1 = (Some ErrRecordNotFound, db1))
  /\ (fst (MovieModel_Get model_3s 9 db1) = (None, Some ErrRecordNotFound)
      /\ fst (MovieModel_Delete model_3s 9 db1) = Some ErrRecordNotFound)
  /\ (fst (MovieModel_Get model_3s 7 db1) = (Some current_movie, None)
      /\ fst (MovieModel_Delete model_3s 7 db1) = None)
  /\ (exists f, fst (MovieModel_Get model_3s 7 db_down) = (None, Some (DatabaseFailure f))).
Proof.
  split; [|split; [|split]].
  - split.
    + apply (Get_Delete_not_found model_3s 0 db1). lia.
    + apply (Get_Delete_not_found model_3s (-4) db1). lia.
  - destruct (Get_Delete_not_found model_3s 9 db1) as (_ & H & _).
    destruct H as (HG & HD & _); [lia | vm_compute; reflexivity | vm_compute; reflexivity |].
    split; [exact HG | exact HD].
  - destruct (Get_Delete_not_found model_3s 7 db1) as (_ & _ & H & _).
    destruct (H ltac:(lia) ltac:(vm_compute; reflexivity) casablanca
                ltac:(vm_compute; reflexivity)) as (HG & _ & HD & _).
    split; [exact HG | exact HD].
  - destruct (Get_Delete_not_found model_3s 7 db_down) as (_ & _ & _ & H).
    destruct H as (f & HG & _); [lia | vm_compute; reflexivity |].
    exists f. exact HG.
Defined.

(** C8. [NewModel] builds its [MovieModel] without a timeout: the field is
    zero, no call of that store is served whatever the handle, and each of the
    four operations (at an id the store looks up) returns the context's
    deadline error and leaves the table as it was. *)
Theorem NewModel_has_no_timeout (movie : Movie) (db : DB) :
  ContextTimeout NewModel_MovieModel = 0
  /\ served (ContextTimeout NewModel_MovieModel) db = false
  /\ (let '(movie', err, db') := Insert (Model_Movie NewModel) movie db in
      movie' = movie /\ err = Some (DatabaseFailure context_DeadlineExceeded)
      /\ table db' = table db)
  /\ (let '(movie', err, db') := Get (Model_Movie NewModel) 7 db in
      movie' = None /\ err = Some (DatabaseFailure context_DeadlineExceeded)
      /\ table db' = table db)
  /\ (let '(movie', err, db') := Update (Model_Movie NewModel) movie db in
      movie' = movie /\ err = Some (DatabaseFailure context_DeadlineExceeded)
      /\ table db' = table db)
  /\ (let '(err, db') := Delete (Model_Movie NewModel) 7 db in
      err = Some (DatabaseFailure context_DeadlineExceeded)
      /\ table db' = table db).
Proof.
  repeat split.
Qed.

(** X1. [Get] of the id that a successful [Insert] has just assigned, when
    that id is at least 1 and the call is served, returns the record
    [Insert] left in memory: the given title, year, runtime and genres, the
    assigned id and creation time, and version 1. *)
Theorem Get_after_Insert (m : MovieModel) (movie movie' : Movie) (db db' : DB) :
  MovieModel_Insert m movie db = (movie', None, db') ->
  1 <= ID movie' ->
  served (ContextTimeout m) db' = true ->
  fst (MovieModel_Get m (ID movie') db') = (Some movie', None)
  /\ Title movie' = Title movie /\ Year movie' = Year movie
  /\ Runtime movie' = Runtime movie /\ Genres movie' = Genres movie
  /\ Version movie' = 1.
Proof.
  unfold MovieModel_Insert, QueryRow_INSERT. intros HI Hid Sv'.
  destruct (served (ContextTimeout m) db) eqn:Sv.
  - rewrite under_timeout_served in HI by exact Sv.
    destruct (exec_insert (Title movie) (Year movie) (Runtime movie) (Genres movie)
                (hd healthy (conditions db)) (table db)) as [r t'] eqn:E.
    destruct r as [[[id created] ver]|f]; simpl in HI; [|discriminate].
    inversion HI; subst. clear HI. simpl in *.
    destruct (exec_insert_spec _ _ _ _ _ _ _ _ _ _ E) as (-> & _ & Hrow).
    split; [|repeat split].
    unfold MovieModel_Get, QueryRow_SELECT.
    apply Z.ltb_ge in Hid. rewrite Hid.
    rewrite under_timeout_served by exact Sv'.
    unfold exec_select. simpl. rewrite Hrow. reflexivity.
  - match type of HI with context [under_timeout ?d ?s ?e db] =>
      destruct (under_timeout_not_served d s e db Sv) as [f Hf]; rewrite Hf in HI
    end.
    simpl in HI. discriminate.
Qed.

Lemma Get_after_Insert_witness :
  fst (MovieModel_Get model_3s 8 (snd (MovieModel_Insert model_3s new_movie db1)))
  = (Some (mkMovie 8 0 "Moana" 2016 107 ["animation"; "adventure"] 1), None).
Proof.
  apply (Get_after_Insert model_3s new_movie
           (mkMovie 8 0 "Moana" 2016 107 ["animation"; "adventure"] 1)
           db1 (snd (MovieModel_Insert model_3s new_movie db1))).
  - vm_compute. reflexivity.
  - simpl. lia.
  - vm_compute. reflexivity.
Defined.

(** X2. [Get] after a successful [Update], when the id is at least 1 and the
    call is served, returns the title, year, runtime and genres that were
    written, at the version [Update] wrote back, which is the old one plus
    one. *)
Theorem Get_after_Update (m : MovieModel) (movie movie' : Movie) (db db' : DB) :
  MovieModel_Update m movie db = (movie', None, db') ->
  1 <= ID movie ->
  served (ContextTimeout m) db' = true ->
  exists got,
    fst (MovieModel_Get m (ID movie) db') = (Some got, None)
    /\ ID got = ID movie /\ Title got = Title movie /\ Year got = Year movie
    /\ Runtime got = Runtime movie /\ Genres got = Genres movie
    /\ Version got = Version movie + 1 /\ Version got = Version movie'.
Proof.
  unfold MovieModel_Update, QueryRow_UPDATE. intros HU Hid Sv'.
  destruct (served (ContextTimeout m) db) eqn:Sv.
  - rewrite under_timeout_served in HU by exact Sv.
    pose proof (exec_update_spec (Title movie) (Year movie) (Runtime movie)
                  (Genres movie) (ID movie) (Version movie) (table db)) as E.
    destruct (rows (table db) !! ID movie) as [row|] eqn:L.
    + destruct (version row =? Version movie) eqn:V.
      * destruct (integer_max <? Version movie + 1); rewrite E in HU; simpl in HU;
          [discriminate|].
        inversion HU; subst. clear HU.
        unfold MovieModel_Get, QueryRow_SELECT.
        apply Z.ltb_ge in Hid. rewrite Hid.
        rewrite under_timeout_served by exact Sv'.
        unfold exec_select. simpl. rewrite lookup_insert_eq. simpl.
        eexists. split; [reflexivity|]. simpl. repeat split.
      * rewrite E in HU. simpl in HU. discriminate.
    + rewrite E in HU. simpl in HU. discriminate.
  - match type of HU with context [under_timeout ?d ?s ?e db] =>
      destruct (under_timeout_not_served d s e db Sv) as [f Hf]; rewrite Hf in HU
    end.
    simpl in HU. discriminate.
Qed.

Lemma Get_after_Update_witness :
  exists got,
    fst (MovieModel_Get model_3s 7 (snd (MovieModel_Update model_3s current_movie db1)))
    = (Some got, None)
    /\ Version got = 4.
Proof.
  destruct (Get_after_Update model_3s current_movie
              (fst (fst (MovieModel_Update model_3s current_movie db1)))
              db1 (snd (MovieModel_Update model_3s current_movie db1)))
    as (got & HG & _ & _ & _ & _ & _ & HV & _).
  - vm_compute. reflexivity.
  - simpl. lia.
  - vm_compute. reflexivity.
  - exists got. split; [exact HG | exact HV].
Defined.






End store_facts.

(* ===================================================================== *)
(** ** Properties of the validators *)
(* ===================================================================== *)

Module validator_facts.

Import validator data api samples.

Lemma AddError_invalid (v : Validator) (key message : string) :
  Valid (AddError v key message) = false.
Proof.
  unfold Valid, AddError. apply bool_decide_eq_false.
  destruct (Errors v !! key) eqn:L.
  - intros E. rewrite E in L. rewrite lookup_empty in L. discriminate.
  - simpl. apply insert_non_empty.
Qed.

Lemma Check_valid (v : Validator) (ok : bool) (key message : string) :
  Valid (Check v ok key message) = Valid v && ok.
Proof.
  unfold Check. destruct ok.
  - rewrite andb_true_r. reflexivity.
  - rewrite andb_false_r. apply AddError_invalid.
Qed.

Lemma In_spec (value : string) (l : list string) :
  In value l = true <-> List.In value l.
Proof.
  unfold In. rewrite existsb_exists. split.
  - intros (x & Hx & E). apply String.eqb_eq in E. subst. exact Hx.
  - intros H. exists value. split; [exact H | apply String.eqb_refl].
Qed.

(** C7. The filter [listMoviesHandler] builds is accepted by a fresh validator
    exactly when the page is between 1 and 10,000,000, the page size between
    1 and 100, and the sort value is in the allow-list; so page 0, page size
    0, page size 101 and a sort value outside the list are each rejected. *)
Theorem ValidateFilter_accepts (page page_size : Z) (sort : string) :
  (Valid (ValidateFilter New (listMovies_Filter page page_size sort)) = true
   <-> 1 <= page <= 10000000 /\ 1 <= page_size <= 100
       /\ List.In sort ["id"; "title"; "year"; "runtime";
                        "-id"; "-title"; "-year"; "-runtime"])
  /\ Valid (ValidateFilter New (listMovies_Filter 0 page_size sort)) = false
  /\ Valid (ValidateFilter New (listMovies_Filter page 0 sort)) = false
  /\ Valid (ValidateFilter New (listMovies_Filter page 101 sort)) = false
  /\ Valid (ValidateFilter New (listMovies_Filter page page_size "rating")) = false.
Proof.
  assert (H : forall p ps s,
    Valid (ValidateFilter New (listMovies_Filter p ps s))
    = (0 <? p) && (p <=? 10000000) && (0 <? ps) && (ps <=? 100)
      && In s listMovies_SortSafeList).
  { intros p ps s. unfold ValidateFilter. rewrite !Check_valid. reflexivity. }
  split; [|repeat split].
  - rewrite H. rewrite !andb_true_iff, In_spec.
    rewrite !Z.ltb_lt, !Z.leb_le. unfold listMovies_SortSafeList.
    intuition lia.
  - rewrite H. reflexivity.
  - rewrite H. simpl. rewrite andb_false_r. reflexivity.
  - rewrite H. simpl. rewrite andb_false_r. reflexivity.
  - rewrite H. simpl. rewrite andb_false_r. reflexivity.
Qed.

End validator_facts.

(* ===================================================================== *)
(** ** Properties of the handlers *)
(* ===================================================================== *)

Module handler_facts.

Import validator data api notions samples store_facts.







(** The header test reports a mismatch exactly for a non-empty value that
    is not the version written in base 32. *)
Lemma version_mismatch_spec (expectedVersion : string) (movie : Movie) :
  version_mismatch expectedVersion movie = true
  <-> expectedVersion <> "" /\ expectedVersion <> strconv.FormatInt (Version movie) 32.
Proof.
  unfold version_mismatch.
  rewrite andb_true_iff, !negb_true_iff, !String.eqb_neq. reflexivity.
Qed.

(** Below 10 the base does not show. *)
Lemma FormatInt_base_32_below_10 (v : Z) :
  0 <= v < 10 -> strconv.FormatInt v 32 = strconv.FormatInt v 10.
Proof.
  intros H.
  assert (E : v = 0 \/ v = 1 \/ v = 2 \/ v = 3 \/ v = 4 \/ v = 5 \/ v = 6
              \/ v = 7 \/ v = 8 \/ v = 9) by lia.
  repeat (destruct E as [->|E]; [reflexivity|]). subst. reflexivity.
Qed.

(** C2. The expected version is compared with the version written in base
    32, not with its decimal form.  At version 10, whose decimal form is 10
    and whose base-32 form is [a]: the header 10 is reported as a conflict,
    answered 409 before any [Update]; the header [a] passes, and the update
    goes through. *)
Theorem expected_version_is_compared_in_base_32 :
  strconv.FormatInt 10 10 = "10"
  /\ strconv.FormatInt 10 32 = "a"
  /\ fst (MovieModel_Get model_3s 7 db10) = (Some movie_v10, None)
  /\ version_mismatch "10" movie_v10 = true
  /\ trace (world_of (serve updateMovie model_3s env2024 patch_expecting_10 db10))
     = [StoreCall (CallGet 7); Response 409]
  /\ version_mismatch "a" movie_v10 = false
  /\ responses (trace (world_of (serve updateMovie model_3s env2024 patch_expecting_a db10)))
     = [200]
  /\ stored_version 7
       (table (state (world_of (serve updateMovie model_3s env2024 patch_expecting_a db10))))
     = Some 11.
Proof.
  repeat split; vm_compute; reflexivity.
Qed.

(** Whatever the request, once the fetched movie has passed the header test
    and the body cannot be decoded, the handler answers 400 and goes on: if
    the movie (with what was decoded) is valid, [Update] is called and a
    second response is written. *)
Lemma update_after_bad_body (m : MovieModel) (env : Env) (r : Request) (db db' : DB)
    (id : Z) (movie : Movie) (input : Input) (err : error) :
  readIdParam r = inl id ->
  MovieModel_Get m id db = (Some movie, None, db') ->
  version_mismatch (X_Expected_Version r) movie = false ->
  readJSON r = (input, Some err) ->
  Valid (ValidateMovie (current_year env) New (copyProperties input movie)) = true ->
  exists w, serve updateMovie m env r db = Returned w
            /\ status_sent (trace w) = Some 400
            /\ existsb is_Update (trace w) = true
            /\ length (responses (trace w)) = 2%nat.
Proof.
  intros Hid Hget Hver Hbody Hvalid.
  unfold serve, updateMovieHandler, store_Get. rewrite Hid. simpl.
  rewrite Hget, Hver, Hbody, Hvalid. simpl.
  unfold store_Update. simpl.
  destruct (MovieModel_Update m (copyProperties input movie) db')
    as [[movie' [e|]] db''].
  - destruct (errors_Is e ErrEditConflict); eexists; repeat split.
  - unfold finish, writeJSON. simpl.
    destruct (writeJSON_error env); eexists; repeat split.
Qed.

(** C9. [updateMovieHandler] does not return after it has answered a body
    that cannot be decoded.  On such a PATCH of a stored, valid movie it
    writes the 400, then calls [Update] with the fetched record, which bumps
    the stored version, and writes a second response. *)
Theorem update_goes_on_after_bad_request :
  snd (readJSON patch_malformed) = Some (RequestError "body contains badly-formed JSON")
  /\ serve updateMovie model_3s env2024 patch_malformed db1
     = Returned (world_of (serve updateMovie model_3s env2024 patch_malformed db1))
  /\ trace (world_of (serve updateMovie model_3s env2024 patch_malformed db1))
     = [StoreCall (CallGet 7); Response 400;
        StoreCall (CallUpdate current_movie); Response 200]
  /\ stored_version 7 (table db1) = Some 3
  /\ stored_version 7
       (table (state (world_of (serve updateMovie model_3s env2024 patch_malformed db1))))
     = Some 4.
Proof.
  repeat split; vm_compute; reflexivity.
Qed.

(** C10. [createMovieHandler] panics on a body that decodes and lacks the
    title, the year or the runtime: it dereferences the nil pointer before
    it validates, and writes no response. *)
Theorem create_panics_on_missing_field {S : Type} (model : Model S) (env : Env)
    (id : Z + error) (header : string) (title : option string)
    (year runtime : option Z) (genres : option (list string)) (w : World S) :
  createMovieHandler model env
    (mkRequest id header (mkInput None year runtime genres, None)) w = Panicked w
  /\ createMovieHandler model env
       (mkRequest id header (mkInput title None runtime genres, None)) w = Panicked w
  /\ createMovieHandler model env
       (mkRequest id header (mkInput title year None genres, None)) w = Panicked w
  /\ serve createMovie model_3s env post_empty_object db1 = Panicked (mkWorld db1 []).
Proof.
  unfold createMovieHandler. simpl. repeat split.
  - destruct title; reflexivity.
  - destruct title; [destruct year|]; reflexivity.
Qed.

(** C6. The interface of [Model.Movie] declares four methods, [Insert],
    [Get], [Update] and [Delete]; [MovieModel] and [MockMovieModel] both
    implement it; [GetAll], which [listMoviesHandler] selects on the
    interface value, is a method neither of the interface nor of the two
    types. *)
Theorem store_interface_has_four_methods :
  map fst Model_Movie_methods = ["Insert"; "Get"; "Update"; "Delete"]
  /\ implements MovieModel_methods Model_Movie_methods = true
  /\ implements MockMovieModel_methods Model_Movie_methods = true
  /\ listMovies_selector = "GetAll"
  /\ selects Model_Movie_methods listMovies_selector = false
  /\ selects MovieModel_methods listMovies_selector = false
  /\ selects MockMovieModel_methods listMovies_selector = false.
Proof.
  repeat split.
Qed.

End handler_facts.

(* ===================================================================== *)
(** ** How the operations of the store compose *)
(* ===================================================================== *)

Module store_laws.

Import validator data notions samples store_facts.

(** [Update] on a served call, by what the statement returns. *)
Lemma Update_when_served (m : MovieModel) (movie : Movie) (db : DB) :
  served (ContextTimeout m) db = true ->
  MovieModel_Update m movie db =
    let r := exec_update (Title movie) (Year movie) (Runtime movie) (Genres movie)
                         (ID movie) (Version movie) (table db) in
    let db' := mkDB (snd r)
                 (calls db ++ [UPDATE (Title movie) (Year movie) (Runtime movie)
                                      (Genres movie) (ID movie) (Version movie)])%list
                 (tl (conditions db)) in
    match fst r with
    | inl (Some ver) => (with_Version movie ver, None, db')
    | inl None => (movie, Some ErrEditConflict, db')
    | inr f => (movie, Some (DatabaseFailure f), db')
    end.
Proof.
  intros Sv. unfold MovieModel_Update, QueryRow_UPDATE.
  rewrite under_timeout_served by exact Sv. simpl.
  destruct (exec_update _ _ _ _ _ _ _) as [[[ver|]|f] t]; reflexivity.
Qed.

(** An operation whose call is not served returns a failure of the call and
    leaves the table as it was. *)
Lemma Update_when_not_served (m : MovieModel) (movie : Movie) (db : DB) :
  served (ContextTimeout m) db = false ->
  exists f, fst (MovieModel_Update m movie db) = (movie, Some (DatabaseFailure f))
            /\ table (snd (MovieModel_Update m movie db)) = table db.
Proof.
  intros Sv. unfold MovieModel_Update, QueryRow_UPDATE.
  match goal with |- context [under_timeout ?d ?s ?e db] =>
    destruct (under_timeout_not_served d s e db Sv) as [f Hf]; rewrite Hf
  end.
  exists f. split; reflexivity.
Qed.

(** What a successful [Update] tells: the call was served, the row was
    stored at the version the movie carried, and the table now holds the
    movie's fields at the next version. *)
Lemma Update_success (m : MovieModel) (movie movie' : Movie) (db db' : DB) :
  MovieModel_Update m movie db = (movie', None, db') ->
  served (ContextTimeout m) db = true
  /\ movie' = with_Version movie (Version movie + 1)
  /\ Version movie + 1 <= integer_max
  /\ exists row,
       rows (table db) !! ID movie = Some row
       /\ version row = Version movie
       /\ table db' =
            mkTable (<[ID movie := mkRow (created_at row) (Title movie) (Year movie)
                                         (Runtime movie) (Genres movie)
                                         (Version movie + 1)]> (rows (table db)))
                    (next_id (table db)).
Proof.
  intros H.
  destruct (served (ContextTimeout m) db) eqn:Sv.
  - rewrite Update_when_served in H by exact Sv. cbv zeta in H.
    pose proof (exec_update_spec (Title movie) (Year movie) (Runtime movie)
                  (Genres movie) (ID movie) (Version movie) (table db)) as E.
    destruct (rows (table db) !! ID movie) as [row|] eqn:L.
    + destruct (version row =? Version movie) eqn:V.
      * apply Z.eqb_eq in V.
        destruct (integer_max <? Version movie + 1) eqn:O;
          rewrite E in H; simpl in H; [discriminate|].
        inversion H; subst. apply Z.ltb_ge in O.
        split; [reflexivity|]. split; [reflexivity|]. split; [exact O|].
        exists row. repeat split. exact V.
      * rewrite E in H. simpl in H. discriminate.
    + rewrite E in H. simpl in H. discriminate.
  - destruct (Update_when_not_served m movie db Sv) as (f & Hf & _).
    rewrite H in Hf. simpl in Hf. discriminate.
Qed.

(** X3. Of two updates that carry the same id and version, only one goes
    through: once [Update] has succeeded for one record, a served [Update]
    of any record with that id and that version returns Edit-Conflict and
    changes neither the table nor the record. *)
Theorem second_Update_conflicts (m : MovieModel) (a a' b : Movie) (db db1 : DB) :
  MovieModel_Update m a db = (a', None, db1) ->
  ID b = ID a ->
  Version b = Version a ->
  served (ContextTimeout m) db1 = true ->
  fst (MovieModel_Update m b db1) = (b, Some ErrEditConflict)
  /\ table (snd (MovieModel_Update m b db1)) = table db1.
Proof.
  intros H Hid Hver Sv1.
  destruct (Update_success _ _ _ _ _ H) as (_ & _ & _ & row & _ & _ & Ht).
  assert (Hm : matches b (table db1) = false).
  { unfold matches. rewrite Ht, Hid. simpl. rewrite lookup_insert_eq. simpl.
    rewrite Hver. apply Z.eqb_neq. lia. }
  rewrite Update_when_served by exact Sv1. cbv zeta.
  rewrite (exec_update_unmatched _ _ _ _ _ _ Hm). simpl. split; reflexivity.
Qed.

Lemma second_Update_conflicts_witness :
  fst (MovieModel_Update model_3s retitled_movie
         (snd (MovieModel_Update model_3s current_movie db1)))
  = (retitled_movie, Some ErrEditConflict).
Proof.
  apply (second_Update_conflicts model_3s current_movie
           (fst (fst (MovieModel_Update model_3s current_movie db1)))
           retitled_movie db1 (snd (MovieModel_Update model_3s current_movie db1))).
  - vm_compute. reflexivity.
  - reflexivity.
  - reflexivity.
  - vm_compute. reflexivity.
Defined.

(** X4. The version [Update] writes back is the one the next [Update] needs:
    after a successful [Update], a served [Update] of the record as written
    back (its fields changed or not) succeeds again, below the end of the
    column's range, and the version has then grown by two. *)
Theorem Update_again (m : MovieModel) (movie movie' next : Movie) (db db1 : DB) :
  MovieModel_Update m movie db = (movie', None, db1) ->
  ID next = ID movie' ->
  Version next = Version movie' ->
  Version movie + 2 <= integer_max ->
  served (ContextTimeout m) db1 = true ->
  exists db2,
    MovieModel_Update m next db1 = (with_Version next (Version movie + 2), None, db2)
    /\ stored_version (ID movie) (table db2) = Some (Version movie + 2).
Proof.
  intros H Hid Hver Hmax Sv1.
  destruct (Update_success _ _ _ _ _ H) as (_ & -> & _ & row & _ & _ & Ht).
  simpl in Hid, Hver.
  rewrite Update_when_served by exact Sv1. cbv zeta.
  pose proof (exec_update_spec (Title next) (Year next) (Runtime next) (Genres next)
                (ID next) (Version next) (table db1)) as E.
  rewrite Ht, Hid in E. simpl in E. rewrite lookup_insert_eq in E. simpl in E.
  rewrite Hver, Z.eqb_refl in E.
  destruct (integer_max <? Version movie + 1 + 1) eqn:O;
    [apply Z.ltb_lt in O; lia|].
  rewrite Ht, Hid, Hver. simpl. rewrite E. simpl.
  replace (Version movie + 1 + 1) with (Version movie + 2) by lia.
  eexists. split; [reflexivity|].
  unfold stored_version. simpl. rewrite lookup_insert_eq. reflexivity.
Qed.

Lemma Update_again_witness :
  exists db2,
    MovieModel_Update model_3s retitled_movie_v4
      (snd (MovieModel_Update model_3s current_movie db1))
    = (with_Version retitled_movie_v4 5, None, db2)
    /\ stored_version 7 (table db2) = Some 5.
Proof.
  apply (Update_again model_3s current_movie
           (fst (fst (MovieModel_Update model_3s current_movie db1)))
           retitled_movie_v4 db1 (snd (MovieModel_Update model_3s current_movie db1))).
  - vm_compute. reflexivity.
  - reflexivity.
  - reflexivity.
  - vm_compute. discriminate.
  - vm_compute. reflexivity.
Defined.

(** [Get], [Delete] and [Insert] on a served call. *)
Lemma Get_when_served (m : MovieModel) (id : Z) (db : DB) :
  1 <= id ->
  served (ContextTimeout m) db = true ->
  MovieModel_Get m id db =
    (match rows (table db) !! id with
     | Some row => (Some (mkMovie id (created_at row) (title row) (year row)
                                  (runtime row) (genres row) (version row)), None)
     | None => (None, Some ErrRecordNotFound)
     end,
     mkDB (table db) (calls db ++ [SELECT id])%list (tl (conditions db))).
Proof.
  intros Hid Sv. unfold MovieModel_Get, QueryRow_SELECT.
  apply Z.ltb_ge in Hid. rewrite Hid.
  rewrite under_timeout_served by exact Sv. unfold exec_select. simpl.
  destruct (rows (table db) !! id); reflexivity.
Qed.

Lemma Delete_when_served (m : MovieModel) (id : Z) (db : DB) :
  1 <= id ->
  served (ContextTimeout m) db = true ->
  MovieModel_Delete m id db =
    match rows (table db) !! id with
    | Some _ => (None, mkDB (mkTable (delete id (rows (table db))) (next_id (table db)))
                            (calls db ++ [DELETE id])%list (tl (conditions db)))
    | None => (Some ErrRecordNotFound,
               mkDB (table db) (calls db ++ [DELETE id])%list (tl (conditions db)))
    end.
Proof.
  intros Hid Sv. unfold MovieModel_Delete, Exec_DELETE.
  apply Z.ltb_ge in Hid. rewrite Hid.
  rewrite under_timeout_served by exact Sv. unfold exec_delete.
  destruct (rows (table db) !! id); reflexivity.
Qed.

Lemma Delete_when_not_served (m : MovieModel) (id : Z) (db : DB) :
  served (ContextTimeout m) db = false ->
  exists err, fst (MovieModel_Delete m id db) = Some err
              /\ table (snd (MovieModel_Delete m id db)) = table db.
Proof.
  intros Sv. unfold MovieModel_Delete, Exec_DELETE.
  destruct (id <? 1); [eexists; split; reflexivity|].
  match goal with |- context [under_timeout ?d ?s ?e db] =>
    destruct (under_timeout_not_served d s e db Sv) as [f Hf]; rewrite Hf
  end.
  eexists. split; reflexivity.
Qed.

(** What a successful [Delete] tells: the id was at least 1, the call was
    served, the row was there, and the table is now without it. *)
Lemma Delete_success (m : MovieModel) (id : Z) (db db' : DB) :
  MovieModel_Delete m id db = (None, db') ->
  1 <= id
  /\ served (ContextTimeout m) db = true
  /\ is_Some (rows (table db) !! id)
  /\ table db' = mkTable (delete id (rows (table db))) (next_id (table db)).
Proof.
  intros H.
  destruct (Z.lt_ge_cases id 1) as [Hlt|Hge].
  - unfold MovieModel_Delete in H. apply Z.ltb_lt in Hlt. rewrite Hlt in H. discriminate.
  - destruct (served (ContextTimeout m) db) eqn:Sv.
    + rewrite Delete_when_served in H by assumption.
      destruct (rows (table db) !! id) as [row|]; [|discriminate].
      inversion H; subst. simpl. repeat split; [exact Hge | eexists; reflexivity].
    + destruct (Delete_when_not_served m id db Sv) as (err & He & _).
      rewrite H in He. discriminate.
Qed.

(** X5. A deleted movie is gone: after a successful [Delete], a served [Get]
    of the same id returns Not-Found and no record, and a served second
    [Delete] returns Not-Found and leaves the table as it is. *)
Theorem Get_after_Delete (m : MovieModel) (id : Z) (db db1 : DB) :
  MovieModel_Delete m id db = (None, db1) ->
  served (ContextTimeout m) db1 = true ->
  fst (MovieModel_Get m id db1) = (None, Some ErrRecordNotFound)
  /\ fst (MovieModel_Delete m id db1) = Some ErrRecordNotFound
  /\ table (snd (MovieModel_Delete m id db1)) = table db1.
Proof.
  intros H Sv1.
  destruct (Delete_success _ _ _ _ H) as (Hid & _ & _ & Ht).
  assert (L : rows (table db1) !! id = None).
  { rewrite Ht. simpl. apply lookup_delete_eq. }
  rewrite Get_when_served, Delete_when_served by assumption.
  rewrite L. repeat split.
Qed.

Lemma Get_after_Delete_witness :
  fst (MovieModel_Get model_3s 7 (snd (MovieModel_Delete model_3s 7 db1)))
  = (None, Some ErrRecordNotFound)
  /\ fst (MovieModel_Delete model_3s 7 (snd (MovieModel_Delete model_3s 7 db1)))
     = Some ErrRecordNotFound.
Proof.
  destruct (Get_after_Delete model_3s 7 db1 (snd (MovieModel_Delete model_3s 7 db1)))
    as (HG & HD & _).
  - vm_compute. reflexivity.
  - vm_compute. reflexivity.
  - split; [exact HG | exact HD].
Defined.

(** [Insert] changes the table in one of two ways: a row at the next id of
    the sequence, which was free, or nothing but the sequence. *)
Lemma Insert_table (m : MovieModel) (movie : Movie) (db : DB) :
  let t := table db in
  let t' := table (snd (MovieModel_Insert m movie db)) in
  t' = t
  \/ (rows t' = rows t /\ next_id t' = next_id t + 1
      /\ snd (fst (MovieModel_Insert m movie db)) <> None)
  \/ (rows t !! next_id t = None
      /\ snd (fst (MovieModel_Insert m movie db)) = None
      /\ exists created,
           rows t' = <[next_id t := mkRow created (Title movie) (Year movie)
                                          (Runtime movie) (Genres movie) 1]> (rows t)).
Proof.
  cbv zeta. unfold MovieModel_Insert, QueryRow_INSERT.
  destruct (served (ContextTimeout m) db) eqn:Sv.
  - rewrite under_timeout_served by exact Sv. unfold exec_insert.
    destruct (rows (table db) !! next_id (table db)) eqn:L; simpl.
    + right. left. repeat split. discriminate.
    + right. right. repeat split. eexists. reflexivity.
  - match goal with |- context [under_timeout ?d ?s ?e db] =>
      destruct (under_timeout_not_served d s e db Sv) as [f Hf]; rewrite Hf
    end.
    left. reflexivity.
Qed.

(** X6. Each operation touches at most the row it names: [Update] and
    [Delete] leave every row of another id as it was, [Get] leaves the whole
    table as it was, and [Insert] leaves every row that exists as it was (it
    never overwrites). *)
Theorem operations_touch_one_row (m : MovieModel) (movie : Movie) (id other : Z) (db : DB) :
  (other <> ID movie ->
   rows (table (snd (MovieModel_Update m movie db))) !! other = rows (table db) !! other)
  /\ (other <> id ->
      rows (table (snd (MovieModel_Delete m id db))) !! other = rows (table db) !! other)
  /\ table (snd (MovieModel_Get m id db)) = table db
  /\ (forall row, rows (table db) !! other = Some row ->
      rows (table (snd (MovieModel_Insert m movie db))) !! other = Some row).
Proof.
  split; [|split; [|split]].
  - intros Hne.
    destruct (served (ContextTimeout m) db) eqn:Sv.
    + rewrite Update_when_served by exact Sv. cbv zeta.
      pose proof (exec_update_spec (Title movie) (Year movie) (Runtime movie)
                    (Genres movie) (ID movie) (Version movie) (table db)) as E.
      destruct (rows (table db) !! ID movie) as [row|].
      * destruct (version row =? Version movie).
        -- destruct (integer_max <? Version movie + 1); rewrite E; simpl;
             [reflexivity|].
           apply lookup_insert_ne. congruence.
        -- rewrite E. reflexivity.
      * rewrite E. reflexivity.
    + destruct (Update_when_not_served m movie db Sv) as (f & _ & Ht).
      rewrite Ht. reflexivity.
  - intros Hne.
    destruct (Z.lt_ge_cases id 1) as [Hlt|Hge].
    + unfold MovieModel_Delete. apply Z.ltb_lt in Hlt. rewrite Hlt. reflexivity.
    + destruct (served (ContextTimeout m) db) eqn:Sv.
      * rewrite Delete_when_served by assumption.
        destruct (rows (table db) !! id); simpl; [|reflexivity].
        apply lookup_delete_ne. congruence.
      * destruct (Delete_when_not_served m id db Sv) as (err & _ & Ht).
        rewrite Ht. reflexivity.
  - unfold MovieModel_Get, QueryRow_SELECT, under_timeout.
    destruct (id <? 1); [reflexivity|].
    destruct ((ContextTimeout m <=? 0) || _); [reflexivity|].
    destruct (failure _); [reflexivity|].
    unfold exec_select. simpl.
    destruct (rows (table db) !! id); reflexivity.
  - intros row L.
    destruct (Insert_table m movie db) as [E|[(E & _)|(Hfree & _ & created & E)]];
      cbv zeta in *.
    + rewrite E. exact L.
    + rewrite E. exact L.
    + rewrite E. rewrite lookup_insert_ne; [exact L|].
      intros Heq. rewrite Heq in Hfree. rewrite Hfree in L. discriminate.
Qed.

Lemma operations_touch_one_row_witness :
  rows (table (snd (MovieModel_Update model_3s current_movie db_two))) !! 9
  = Some metropolis
  /\ rows (table (snd (MovieModel_Delete model_3s 7 db_two))) !! 9 = Some metropolis
  /\ rows (table (snd (MovieModel_Insert model_3s new_movie db_two))) !! 9
     = Some metropolis.
Proof.
  destruct (operations_touch_one_row model_3s current_movie 7 9 db_two)
    as (HU & HD & _ & _).
  destruct (operations_touch_one_row model_3s new_movie 7 9 db_two)
    as (_ & _ & _ & HI).
  split; [|split].
  - rewrite HU; [vm_compute; reflexivity | simpl; lia].
  - rewrite HD; [vm_compute; reflexivity | lia].
  - apply HI. vm_compute. reflexivity.
Defined.



End store_laws.

(* ===================================================================== *)
(** ** What the handlers do over any store *)
(* ===================================================================== *)

Module handler_laws.

Import validator data api notions trace_notions samples.

Lemma responses_app (t1 t2 : list event) :
  responses (t1 ++ t2)%list = (responses t1 ++ responses t2)%list.
Proof. unfold responses. apply flat_map_app. Qed.

Lemma store_calls_app (t1 t2 : list event) :
  store_calls (t1 ++ t2)%list = (store_calls t1 ++ store_calls t2)%list.
Proof. unfold store_calls. apply flat_map_app. Qed.

Lemma responses_Response (s : Z) : responses [Response s] = [s].
Proof. reflexivity. Qed.

Lemma responses_StoreCall (c : call) : responses [StoreCall c] = [].
Proof. reflexivity. Qed.

Lemma store_calls_Response (s : Z) : store_calls [Response s] = [].
Proof. reflexivity. Qed.

Lemma store_calls_StoreCall (c : call) : store_calls [StoreCall c] = [c].
Proof. reflexivity. Qed.

(** Brings the responses and the store calls of a trace built by appending
    into the shape [old ++ added]. *)
Ltac added :=
  unfold badRequestResponse, notFoundResponse, editConflictResponse,
    failedValidationResponse, serverErrorResponse, record;
  cbn [trace state world_of];
  rewrite ?responses_app, ?store_calls_app,
    ?responses_Response, ?responses_StoreCall,
    ?store_calls_Response, ?store_calls_StoreCall;
  rewrite ?app_nil_r, <- ?app_assoc;
  cbn [app].

Section AnyStore.

Context {S : Type}.
Variable model : Model S.
Variable env : Env.


(** X9. The two handlers that do not write a movie call the store once, and
    only with their own method: whatever the store, [showMovieHandler] calls
    [Get], and [deleteMovieHandler] calls [Delete], exactly once with the id
    of the request, and nothing else; neither calls anything when the id
    cannot be read. *)
Theorem read_and_delete_call_once (r : Request) (w : World S) :
  store_calls (trace (world_of (showMovieHandler model env r w)))
  = (store_calls (trace w)
     ++ match readIdParam r with inl id => [CallGet id] | inr _ => [] end)%list
  /\ store_calls (trace (world_of (deleteMovieHandler model env r w)))
     = (store_calls (trace w)
        ++ match readIdParam r with inl id => [CallDelete id] | inr _ => [] end)%list.
Proof.
  split.
  - unfold showMovieHandler, store_Get, finish, writeJSON.
    destruct (readIdParam r) as [id|e]; [|added; reflexivity].
    destruct (Get (Model_Movie model) id (state w)) as [[movie [err|]] st].
    + destruct (errors_Is err ErrRecordNotFound); added; reflexivity.
    + destruct (writeJSON_error env); added; reflexivity.
  - unfold deleteMovieHandler, store_Delete, finish, writeJSON.
    destruct (readIdParam r) as [id|e]; [|added; reflexivity].
    destruct (Delete (Model_Movie model) id (state w)) as [[err|] st].
    + destruct (errors_Is err ErrRecordNotFound); added; reflexivity.
    + destruct (writeJSON_error env); added; reflexivity.
Qed.

(** X10. Nothing invalid is written: whatever the store,
    [createMovieHandler] calls nothing, or [Insert] once, and
    [updateMovieHandler] calls nothing, or [Get] once, or [Get] and then
    [Update] once; the movie given to [Insert] or [Update] has passed
    [ValidateMovie], and neither handler calls [Delete]. *)
Theorem writes_pass_validation (r : Request) (w : World S) :
  (exists added,
      store_calls (trace (world_of (createMovieHandler model env r w)))
      = (store_calls (trace w) ++ added)%list
      /\ (added = []
          \/ exists movie,
               added = [CallInsert movie]
               /\ Valid (ValidateMovie (current_year env) New movie) = true))
  /\ (exists added,
      store_calls (trace (world_of (updateMovieHandler model env r w)))
      = (store_calls (trace w) ++ added)%list
      /\ (added = []
          \/ exists id,
               readIdParam r = inl id
               /\ (added = [CallGet id]
                   \/ exists movie,
                        added = [CallGet id; CallUpdate movie]
                        /\ Valid (ValidateMovie (current_year env) New movie) = true))).
Proof.
  split.
  - unfold createMovieHandler, store_Insert, finish, writeJSON.
    destruct (readJSON r) as [input [e|]];
      [exists []; split; [added; reflexivity | left; reflexivity]|].
    destruct (Input_Title input) as [title|];
      [|exists []; split; [added; reflexivity | left; reflexivity]].
    destruct (Input_Year input) as [year|];
      [|exists []; split; [added; reflexivity | left; reflexivity]].
    destruct (Input_Runtime input) as [runtime|];
      [|exists []; split; [added; reflexivity | left; reflexivity]].
    destruct (Valid _) eqn:V; cbn [negb];
      [|exists []; split; [added; reflexivity | left; reflexivity]].
    exists [CallInsert (mkMovie 0 0 title year runtime
                           (default [] (Input_Genres input)) 0)].
    split.
    + destruct (Insert _ _ _) as [[movie' [err|]] st]; [added; reflexivity|].
      destruct (writeJSON_error env); added; reflexivity.
    + right. eexists. split; [reflexivity | exact V].
  - unfold updateMovieHandler, store_Get, store_Update, finish, writeJSON.
    destruct (readIdParam r) as [id|e];
      [|exists []; split; [added; reflexivity | left; reflexivity]].
    destruct (Get (Model_Movie model) id (state w)) as [[movie [err|]] st].
    { exists [CallGet id]. split.
      - destruct (errors_Is err ErrRecordNotFound); added; reflexivity.
      - right. exists id. split; [reflexivity | left; reflexivity]. }
    destruct movie as [movie|].
    2:{ exists [CallGet id]. split; [added; reflexivity|].
        right. exists id. split; [reflexivity | left; reflexivity]. }
    destruct (version_mismatch _ _).
    { exists [CallGet id]. split; [added; reflexivity|].
      right. exists id. split; [reflexivity | left; reflexivity]. }
    destruct (readJSON r) as [input oe]. cbv beta iota zeta.
    destruct (Valid _) eqn:V; cbn [negb].
    + exists [CallGet id; CallUpdate (copyProperties input movie)]. split.
      * destruct (Update _ _ _) as [[movie' [err|]] st'].
        -- destruct (errors_Is err ErrEditConflict); destruct oe; added; reflexivity.
        -- destruct (writeJSON_error env); destruct oe; added; reflexivity.
      * right. exists id. split; [reflexivity|]. right.
        eexists. split; [reflexivity | exact V].
    + exists [CallGet id]. split; [destruct oe; added; reflexivity|].
      right. exists id. split; [reflexivity | left; reflexivity].
Qed.

(** Closes an equivalence whose left side is [false = true]. *)
Ltac never H :=
  split; [discriminate | intros H].

(** X11. Whatever the store, served from an empty trace,
    [showMovieHandler] and [deleteMovieHandler] send a success status
    exactly when the id can be read, the store method returns no error and
    the response body encodes. *)
Theorem read_and_delete_succeed_when (r : Request) (s : S) :
  (succeeded (trace (world_of (showMovieHandler model env r (mkWorld s [])))) = true
   <-> exists id, readIdParam r = inl id
                  /\ snd (fst (Get (Model_Movie model) id s)) = None
                  /\ writeJSON_error env = None)
  /\ (succeeded (trace (world_of (deleteMovieHandler model env r (mkWorld s [])))) = true
      <-> exists id, readIdParam r = inl id
                     /\ fst (Delete (Model_Movie model) id s) = None
                     /\ writeJSON_error env = None).
Proof.
  split.
  - unfold showMovieHandler, store_Get, finish, writeJSON. cbn [state trace].
    destruct (readIdParam r) as [id|e];
      [|never H; destruct H as (? & H & _); discriminate].
    destruct (Get (Model_Movie model) id s) as [[movie [err|]] st] eqn:G.
    + destruct (errors_Is err ErrRecordNotFound); never H;
        destruct H as (id' & E & H & _); inversion E; subst id';
        rewrite G in H; discriminate.
    + destruct (writeJSON_error env) as [e|].
      * never H. destruct H as (_ & _ & _ & H). discriminate.
      * split; [intros _ | reflexivity].
        exists id. rewrite G. repeat split.
  - unfold deleteMovieHandler, store_Delete, finish, writeJSON. cbn [state trace].
    destruct (readIdParam r) as [id|e];
      [|never H; destruct H as (? & H & _); discriminate].
    destruct (Delete (Model_Movie model) id s) as [[err|] st] eqn:G.
    + destruct (errors_Is err ErrRecordNotFound); never H;
        destruct H as (id' & E & H & _); inversion E; subst id';
        rewrite G in H; discriminate.
    + destruct (writeJSON_error env) as [e|].
      * never H. destruct H as (_ & _ & _ & H). discriminate.
      * split; [intros _ | reflexivity].
        exists id. rewrite G. repeat split.
Qed.

(** X12. Whatever the store, served from an empty trace,
    [createMovieHandler] sends a success status exactly when the body
    decodes and gives title, year and runtime, the movie built from it is
    valid, [Insert] returns no error and the response body encodes;
    [updateMovieHandler] exactly when the id can be read, [Get] returns a
    movie and no error, the expected version, if given, passes, the body
    decodes, the movie with the body's fields is valid, [Update] returns no
    error and the response body encodes. *)
Theorem writes_succeed_when (r : Request) (s : S) :
  (succeeded (trace (world_of (createMovieHandler model env r (mkWorld s [])))) = true
   <-> exists input title year runtime,
         readJSON r = (input, None)
         /\ Input_Title input = Some title
         /\ Input_Year input = Some year
         /\ Input_Runtime input = Some runtime
         /\ Valid (ValidateMovie (current_year env) New
                     (created_movie title year runtime input)) = true
         /\ snd (fst (Insert (Model_Movie model)
                        (created_movie title year runtime input) s)) = None
         /\ writeJSON_error env = None)
  /\ (succeeded (trace (world_of (updateMovieHandler model env r (mkWorld s [])))) = true
      <-> exists id movie s1 input,
            readIdParam r = inl id
            /\ Get (Model_Movie model) id s = (Some movie, None, s1)
            /\ version_mismatch (X_Expected_Version r) movie = false
            /\ readJSON r = (input, None)
            /\ Valid (ValidateMovie (current_year env) New
                        (copyProperties input movie)) = true
            /\ snd (fst (Update (Model_Movie model) (copyProperties input movie) s1)) = None
            /\ writeJSON_error env = None).
Proof.
  split.
  - unfold createMovieHandler, store_Insert, finish, writeJSON, created_movie.
    cbn [state trace].
    destruct (readJSON r) as [input [e|]];
      [never H; destruct H as (? & ? & ? & ? & H & _); discriminate|].
    destruct (Input_Title input) as [title|] eqn:ET;
      [|never H; destruct H as (? & ? & ? & ? & E & H & _);
        inversion E; subst; rewrite ET in H; discriminate].
    destruct (Input_Year input) as [year|] eqn:EY;
      [|never H; destruct H as (? & ? & ? & ? & E & _ & H & _);
        inversion E; subst; rewrite EY in H; discriminate].
    destruct (Input_Runtime input) as [runtime|] eqn:ER;
      [|never H; destruct H as (? & ? & ? & ? & E & _ & _ & H & _);
        inversion E; subst; rewrite ER in H; discriminate].
    assert (Same : forall i t y rt (P : Prop),
      (input, @None error) = (i, None) -> Input_Title i = Some t ->
      Input_Year i = Some y -> Input_Runtime i = Some rt ->
      (i = input -> t = title -> y = year -> rt = runtime -> P) -> P).
    { intros i t y rt P E H1 H2 H3 K. inversion E; subst i.
      rewrite ET in H1. rewrite EY in H2. rewrite ER in H3.
      apply K; congruence. }
    destruct (Valid _) eqn:V; cbn [negb].
    2:{ never H. destruct H as (i & t & y & rt & E & H1 & H2 & H3 & HV & _).
        apply (Same i t y rt _ E H1 H2 H3). intros -> -> -> ->.
        rewrite V in HV. discriminate. }
    destruct (Insert _ _ _) as [[movie' [err|]] st] eqn:I.
    { never H. destruct H as (i & t & y & rt & E & H1 & H2 & H3 & _ & HI & _).
      apply (Same i t y rt _ E H1 H2 H3). intros -> -> -> ->.
      rewrite I in HI. discriminate. }
    destruct (writeJSON_error env) as [e|].
    { never H. destruct H as (? & ? & ? & ? & _ & _ & _ & _ & _ & _ & H). discriminate. }
    split; [intros _ | reflexivity].
    exists input, title, year, runtime. rewrite I. repeat split; assumption.
  - unfold updateMovieHandler, store_Get, store_Update, finish, writeJSON.
    cbn [state trace].
    destruct (readIdParam r) as [id|e];
      [|never H; destruct H as (? & ? & ? & ? & H & _); discriminate].
    destruct (Get (Model_Movie model) id s) as [[movie [err|]] st] eqn:G.
    { destruct (errors_Is err ErrRecordNotFound); never H;
        destruct H as (i & mv & s1 & ? & E & G2 & _);
        inversion E; subst i; rewrite G in G2; discriminate. }
    destruct movie as [movie|].
    2:{ never H. destruct H as (i & mv & s1 & ? & E & G2 & _).
        inversion E; subst i; rewrite G in G2; discriminate. }
    destruct (version_mismatch _ _) eqn:VM.
    { never H. destruct H as (i & mv & s1 & ? & E & G2 & HV & _).
      inversion E; subst i; rewrite G in G2; inversion G2; subst.
      rewrite VM in HV. discriminate. }
    destruct (readJSON r) as [input [e|]]; cbv beta iota zeta.
    { destruct (Valid _); cbn [negb];
        [destruct (Update _ _ _) as [[movie' [err|]] st'];
           [destruct (errors_Is err ErrEditConflict) | destruct (writeJSON_error env)]|];
        never H; destruct H as (? & ? & ? & ? & _ & _ & _ & H & _); discriminate. }
    destruct (Valid _) eqn:V; cbn [negb].
    2:{ never H. destruct H as (i & mv & s1 & inp & E & G2 & _ & EJ & HV & _).
        inversion E; subst i; rewrite G in G2; inversion G2; inversion EJ; subst.
        rewrite V in HV. discriminate. }
    destruct (Update _ _ _) as [[movie' [err|]] st'] eqn:U.
    { destruct (errors_Is err ErrEditConflict); never H;
        destruct H as (i & mv & s1 & inp & E & G2 & _ & EJ & _ & HU & _);
        inversion E; subst i; rewrite G in G2; inversion G2; inversion EJ; subst;
        cbn [state] in U; rewrite U in HU; discriminate. }
    destruct (writeJSON_error env) as [e|].
    { never H. destruct H as (? & ? & ? & ? & _ & _ & _ & _ & _ & _ & H). discriminate. }
    split; [intros _ | reflexivity].
    exists id, movie, st, input. cbn [state] in U. rewrite U.
    repeat split; assumption.
Qed.

End AnyStore.

(** With the store [NewModel] builds, every operation returns an error and
    leaves the table as it was. *)
Lemma NewModel_Get_fails (id : Z) (db : DB) :
  exists err db',
    MovieModel_Get NewModel_MovieModel id db = (None, Some err, db')
    /\ table db' = table db.
Proof.
  unfold MovieModel_Get. destruct (id <? 1); do 2 eexists; split; reflexivity.
Qed.

Lemma NewModel_Delete_fails (id : Z) (db : DB) :
  exists err db',
    MovieModel_Delete NewModel_MovieModel id db = (Some err, db')
    /\ table db' = table db.
Proof.
  unfold MovieModel_Delete. destruct (id <? 1); do 2 eexists; split; reflexivity.
Qed.

Lemma NewModel_Insert_fails (movie : Movie) (db : DB) :
  exists err db',
    MovieModel_Insert NewModel_MovieModel movie db = (movie, Some err, db')
    /\ table db' = table db.
Proof. do 2 eexists. split; reflexivity. Qed.

(** X13. Served over the store that [NewModel] builds, no handler ever
    sends a success status, and none changes the table: whatever the
    request, the handle and the process. *)
Theorem NewModel_never_succeeds (h : handler) (env : Env) (r : Request) (db : DB) :
  succeeded (trace (world_of (serve h NewModel_MovieModel env r db))) = false
  /\ table (state (world_of (serve h NewModel_MovieModel env r db))) = table db.
Proof.
  destruct h; unfold serve.
  - unfold createMovieHandler, store_Insert. cbn [state trace Model_Movie MovieModel_store Insert].
    destruct (readJSON r) as [input [e|]]; [split; reflexivity|].
    destruct (Input_Title input); [|split; reflexivity].
    destruct (Input_Year input); [|split; reflexivity].
    destruct (Input_Runtime input); [|split; reflexivity].
    destruct (Valid _); cbn [negb]; [|split; reflexivity].
    match goal with |- context [MovieModel_Insert _ ?mv db] =>
      destruct (NewModel_Insert_fails mv db) as (err & db' & E & Ht); rewrite E
    end.
    split; [reflexivity | exact Ht].
  - unfold showMovieHandler, store_Get. cbn [state trace Model_Movie MovieModel_store Get].
    destruct (readIdParam r) as [id|e]; [|split; reflexivity].
    destruct (NewModel_Get_fails id db) as (err & db' & E & Ht). rewrite E.
    destruct (errors_Is err ErrRecordNotFound); (split; [reflexivity | exact Ht]).
  - unfold updateMovieHandler, store_Get. cbn [state trace Model_Movie MovieModel_store Get].
    destruct (readIdParam r) as [id|e]; [|split; reflexivity].
    destruct (NewModel_Get_fails id db) as (err & db' & E & Ht). rewrite E.
    destruct (errors_Is err ErrRecordNotFound); (split; [reflexivity | exact Ht]).
  - unfold deleteMovieHandler, store_Delete.
    cbn [state trace Model_Movie MovieModel_store Delete].
    destruct (readIdParam r) as [id|e]; [|split; reflexivity].
    destruct (NewModel_Delete_fails id db) as (err & db' & E & Ht). rewrite E.
    destruct (errors_Is err ErrRecordNotFound); (split; [reflexivity | exact Ht]).
Qed.



End handler_laws.

(* ===================================================================== *)
(** ** The expected version, read back *)
(* ===================================================================== *)

Module strconv_facts.

Import data api strconv strconv_notions.

Lemma read_String (base : Z) (c : ascii) (s : string) (negative : bool) (acc : Z) :
  read base (String c s) negative acc
  = if Ascii.eqb c "-" then read base s true acc
    else read base s negative (acc * base + digit_value c).
Proof. reflexivity. Qed.

(** Each of the 36 digits is not the sign and has its own value. *)
Lemma digit_value_digit (d : Z) :
  0 <= d < 36 ->
  Ascii.eqb (digit d) "-" = false /\ digit_value (digit d) = d.
Proof.
  intros H. rewrite <- (Z2Nat.id d) by lia.
  assert (Hn : (Z.to_nat d < 36)%nat) by lia.
  generalize dependent (Z.to_nat d). intros n Hn.
  do 36 (destruct n as [|n]; [split; reflexivity|]).
  lia.
Qed.

(** The digits [formatBits] writes denote the number it was given. *)
Lemma read_formatBits (base : Z) :
  2 <= base <= 36 ->
  forall (fuel : nat) (u : Z) (acc : string) (negative : bool),
    0 <= u < base ^ Z.of_nat fuel ->
    read base (formatBits fuel u base acc) negative 0 = read base acc negative u.
Proof.
  intros Hb. induction fuel as [|fuel IH]; intros u acc negative Hu.
  - simpl in Hu. assert (u = 0) by lia. subst u. reflexivity.
  - rewrite Nat2Z.inj_succ, Z.pow_succ_r in Hu by lia.
    cbn [formatBits]. destruct (u <? base) eqn:E.
    + apply Z.ltb_lt in E.
      destruct (digit_value_digit u) as [Hs Hv]; [lia|].
      rewrite read_String, Hs, Hv. f_equal; lia.
    + apply Z.ltb_ge in E.
      rewrite IH.
      * destruct (digit_value_digit (u mod base)) as [Hs Hv].
        { pose proof (Z.mod_pos_bound u base). lia. }
        rewrite read_String, Hs, Hv.
        pose proof (Z.div_mod u base). f_equal; lia.
      * split; [apply Z.div_pos; lia|].
        apply Z.div_lt_upper_bound; lia.
Qed.

(** What [FormatInt] writes of an [int64], in any base it accepts, denotes
    that integer. *)
Lemma FormatInt_denotes (i base : Z) :
  2 <= base <= 36 ->
  - 2 ^ 63 <= i < 2 ^ 63 ->
  denoted base (FormatInt i base) = i.
Proof.
  intros Hb Hi. unfold denoted, FormatInt.
  assert (Hpow : 2 ^ 64 <= base ^ Z.of_nat 64).
  { change (Z.of_nat 64) with 64. apply Z.pow_le_mono_l. lia. }
  destruct (i <? 0) eqn:E.
  - apply Z.ltb_lt in E. rewrite read_String. cbn [Ascii.eqb Bool.eqb].
    rewrite read_formatBits by lia. cbn [read]. lia.
  - apply Z.ltb_ge in E. rewrite read_formatBits by lia. reflexivity.
Qed.

(** X15. A value of the [X-Expected-Version] header names at most one
    version: when a non-empty value passes the handler's test for two
    fetched movies, the two have the same version. *)
Theorem expected_version_names_one_version (expectedVersion : string) (a b : Movie) :
  - 2 ^ 63 <= Version a < 2 ^ 63 ->
  - 2 ^ 63 <= Version b < 2 ^ 63 ->
  expectedVersion <> "" ->
  version_mismatch expectedVersion a = false ->
  version_mismatch expectedVersion b = false ->
  Version a = Version b.
Proof.
  intros Ha Hb Hne Pa Pb.
  assert (Written : forall m, version_mismatch expectedVersion m = false ->
                              expectedVersion = FormatInt (Version m) 32).
  { intros m P. unfold version_mismatch in P.
    apply andb_false_iff in P as [P|P]; apply negb_false_iff in P;
      apply String.eqb_eq in P; [contradiction | exact P]. }
  rewrite <- (FormatInt_denotes (Version a) 32) by lia.
  rewrite <- (FormatInt_denotes (Version b) 32) by lia.
  rewrite <- (Written a Pa), <- (Written b Pb). reflexivity.
Qed.

Lemma expected_version_names_one_version_witness :
  Version samples.movie_v10 = Version samples.movie_v10_retitled.
Proof.
  apply (expected_version_names_one_version "a").
  - simpl. lia.
  - simpl. lia.
  - discriminate.
  - vm_compute. reflexivity.
  - vm_compute. reflexivity.
Defined.

End strconv_facts.

(* ===================================================================== *)
(** ** Requests in sequence, over the SQL-backed store *)
(* ===================================================================== *)

Module request_sequences.

Import validator data api notions trace_notions samples store_facts store_laws
       handler_laws strconv_facts.

(** What a [Get] that returns a movie tells. *)
Lemma Get_success (m : MovieModel) (id : Z) (movie : Movie) (db db' : DB) :
  MovieModel_Get m id db = (Some movie, None, db') ->
  1 <= id
  /\ table db' = table db
  /\ exists row,
       rows (table db) !! id = Some row
       /\ movie = mkMovie id (created_at row) (title row) (year row) (runtime row)
                          (genres row) (version row).
Proof.
  intros H.
  destruct (Z.lt_ge_cases id 1) as [Hlt|Hge].
  { unfold MovieModel_Get in H. apply Z.ltb_lt in Hlt. rewrite Hlt in H. discriminate. }
  destruct (served (ContextTimeout m) db) eqn:Sv.
  - rewrite Get_when_served in H by assumption.
    destruct (rows (table db) !! id) as [row|]; [|discriminate].
    inversion H; subst. repeat split; [exact Hge|]. exists row. split; reflexivity.
  - revert H. unfold MovieModel_Get, QueryRow_SELECT.
    apply Z.ltb_ge in Hge. rewrite Hge.
    match goal with |- context [under_timeout ?d ?s ?e db] =>
      destruct (under_timeout_not_served d s e db Sv) as [f Hf]; rewrite Hf
    end.
    simpl. discriminate.
Qed.

(** X16. DELETE and then GET: when [deleteMovieHandler] has answered 200,
    [showMovieHandler] on the same request (the same id), its call served,
    answers 404. *)
Theorem show_after_delete (m : MovieModel) (env : Env) (r : Request) (db : DB)
    (w1 : World DB) :
  serve deleteMovie m env r db = Returned w1 ->
  responses (trace w1) = [200] ->
  served (ContextTimeout m) (state w1) = true ->
  exists w2, serve showMovie m env r (state w1) = Returned w2
             /\ responses (trace w2) = [404].
Proof.
  unfold serve, deleteMovieHandler, showMovieHandler, store_Delete, store_Get,
    finish, writeJSON.
  cbn [state trace Model_Movie MovieModel_store Delete Get].
  destruct (readIdParam r) as [id|e];
    [|intros H; inversion H; subst; discriminate].
  destruct (MovieModel_Delete m id db) as [[err|] db1] eqn:D.
  { destruct (errors_Is err ErrRecordNotFound);
      intros H; inversion H; subst; discriminate. }
  destruct (writeJSON_error env);
    [intros H; inversion H; subst; discriminate|].
  intros H _ Sv. inversion H; subst. unfold record in *. cbn [state trace] in *.
  destruct (Delete_success _ _ _ _ D) as (Hid & _ & _ & Ht).
  rewrite Get_when_served by assumption.
  rewrite Ht. cbn [rows]. rewrite lookup_delete_eq.
  eexists. split; reflexivity.
Qed.

Lemma show_after_delete_witness :
  exists w2,
    serve showMovie model_3s env2024 delete_7
      (state (world_of (serve deleteMovie model_3s env2024 delete_7 db1)))
    = Returned w2
    /\ responses (trace w2) = [404].
Proof.
  apply (show_after_delete model_3s env2024 delete_7 db1
           (world_of (serve deleteMovie model_3s env2024 delete_7 db1))).
  - vm_compute. reflexivity.
  - vm_compute. reflexivity.
  - vm_compute. reflexivity.
Defined.

(** X17. PATCH twice with the same expected version: when
    [updateMovieHandler] has answered 200 to a request that gives a
    non-empty [X-Expected-Version], the same request again, its [Get]
    served, is answered 409; [Update] is not called and the table stays as
    the first request left it.  (The stored versions are taken to fit an
    [int64] from below; a successful update keeps them in the column's
    range from above.) *)
Theorem second_patch_conflicts (m : MovieModel) (env : Env) (r : Request) (db : DB)
    (w1 : World DB) :
  X_Expected_Version r <> "" ->
  (forall id row, rows (table db) !! id = Some row -> - 2 ^ 63 <= version row) ->
  serve updateMovie m env r db = Returned w1 ->
  responses (trace w1) = [200] ->
  served (ContextTimeout m) (state w1) = true ->
  exists w2, serve updateMovie m env r (state w1) = Returned w2
             /\ responses (trace w2) = [409]
             /\ existsb is_Update (trace w2) = false
             /\ table (state w2) = table (state w1).
Proof.
  intros Hne Hlow.
  unfold serve, updateMovieHandler, store_Get, store_Update, finish, writeJSON.
  cbn [state trace Model_Movie MovieModel_store Get Update].
  destruct (readIdParam r) as [id|e];
    [|intros H; inversion H; subst; discriminate].
  destruct (MovieModel_Get m id db) as [[movie [err|]] db0] eqn:G.
  { destruct (errors_Is err ErrRecordNotFound);
      intros H; inversion H; subst; discriminate. }
  destruct movie as [movie|]; [|discriminate].
  destruct (version_mismatch (X_Expected_Version r) movie) eqn:VM;
    [intros H; inversion H; subst; discriminate|].
  destruct (readJSON r) as [input [e|]]; cbv beta iota zeta;
    unfold badRequestResponse, record; cbn [state trace].
  { destruct (Valid _); cbn [negb];
      [destruct (MovieModel_Update _ _ _) as [[movie' [err|]] db1];
         [destruct (errors_Is err ErrEditConflict) | destruct (writeJSON_error env)]|];
      intros H; inversion H; subst; discriminate. }
  destruct (Valid _); cbn [negb];
    [|intros H; inversion H; subst; discriminate].
  destruct (MovieModel_Update m (copyProperties input movie) db0)
    as [[movie' [err|]] db1] eqn:U.
  { destruct (errors_Is err ErrEditConflict);
      intros H; inversion H; subst; discriminate. }
  destruct (writeJSON_error env);
    [intros H; inversion H; subst; discriminate|].
  intros H _ Sv. inversion H; subst. unfold record in *. cbn [state trace] in *.
  clear H.
  destruct (Get_success _ _ _ _ _ G) as (Hid & Ht0 & row & L & ->).
  destruct (Update_success _ _ _ _ _ U) as (_ & _ & Hmax & row' & L' & _ & Ht1).
  cbn [copyProperties ID Version] in *.
  rewrite Ht0 in L'. rewrite L in L'. inversion L'; subst row'. clear L'.
  rewrite Get_when_served by assumption.
  rewrite Ht1. cbn [rows]. rewrite lookup_insert_eq. cbn [created_at title year runtime genres version].
  assert (Hold : X_Expected_Version r = strconv.FormatInt (version row) 32).
  { unfold version_mismatch in VM. cbn [Version] in VM.
    apply andb_false_iff in VM as [P|P]; apply negb_false_iff in P;
      apply String.eqb_eq in P; [contradiction | exact P]. }
  assert (VM' : forall mv, Version mv = version row + 1 ->
                           version_mismatch (X_Expected_Version r) mv = true).
  { intros mv Hv. unfold version_mismatch. rewrite Hv.
    apply andb_true_iff. split; apply negb_true_iff; apply String.eqb_neq;
      [exact Hne|].
    rewrite Hold. intros E.
    assert (D : version row = version row + 1).
    { pose proof (Hlow id row L) as Hl. unfold integer_max in Hmax.
      rewrite <- (FormatInt_denotes (version row) 32) at 1 by lia.
      rewrite <- (FormatInt_denotes (version row + 1) 32) by lia.
      rewrite E. reflexivity. }
    lia. }
  rewrite VM' by reflexivity.
  eexists. split; [reflexivity|]. cbn [state trace editConflictResponse record].
  repeat split.
Qed.

Lemma second_patch_conflicts_witness :
  exists w2,
    serve updateMovie model_3s env2024 patch_expecting_3
      (state (world_of (serve updateMovie model_3s env2024 patch_expecting_3 db1)))
    = Returned w2
    /\ responses (trace w2) = [409]
    /\ existsb is_Update (trace w2) = false.
Proof.
  destruct (second_patch_conflicts model_3s env2024 patch_expecting_3 db1
              (world_of (serve updateMovie model_3s env2024 patch_expecting_3 db1)))
    as (w2 & H1 & H2 & H3 & _).
  - discriminate.
  - intros id row L.
    destruct (decide (id = 7)) as [->|Hn].
    + vm_compute in L. inversion L. vm_compute. discriminate.
    + unfold db1, table1 in L. cbn [table rows] in L.
      rewrite lookup_singleton_ne in L by congruence. discriminate.
  - vm_compute. reflexivity.
  - vm_compute. reflexivity.
  - vm_compute. reflexivity.
  - exists w2. repeat split; assumption.
Defined.

End request_sequences.
